(** * AI_Supplier_Scrapper: the extraction-and-ranking core of [final.py]

    A shallow embedding of [extract_webpage_text], [chat_with_openai],
    [rank_suppliers], [format_deep_scrape_output] and the memoised
    [deep_scrape_website], with the properties the specification states
    about them.

    Conventions of the embedding.
    - A Python [str] is a list of code points below 256 ([pystr]); on that
      range [lower] and [strip] follow Python's tables.
    - A Python [dict] is an association list in insertion order.
    - A Python exception that the function does not catch is the [Raised]
      outcome.
    - The collaborators (HTTP, the completion service, the HTML and JSON
      parsers) are variables of the section that uses them; what the
      program does with the screen, the clock and the network is recorded
      as a trace of events. *)

From Stdlib Require Import List Ascii String Bool Arith ZArith QArith Lia.
From Stdlib Require Import Qround Lqa DecimalString.
Import ListNotations.

Close Scope Q_scope.
Set Implicit Arguments.

(** ** Python strings *)

Module Py.

Definition pystr := list ascii.

(** A string literal of the source. *)
Definition lit (s : string) : pystr := list_ascii_of_string s.

(** [s.startswith(p)] *)
Fixpoint startswith (p s : pystr) : bool :=
  match p, s with
  | [], _ => true
  | _ :: _, [] => false
  | a :: p', b :: s' => Ascii.eqb a b && startswith p' s'
  end.

(** [sub in s] *)
Fixpoint contains (sub s : pystr) : bool :=
  startswith sub s ||
  match s with
  | [] => false
  | _ :: t => contains sub t
  end.

(** [c in s] for a single character. *)
Definition has_char (c : ascii) (s : pystr) : bool :=
  existsb (Ascii.eqb c) s.

(** One character of [str.lower()]: A-Z and the Latin-1 capitals. *)
Definition lower_char (c : ascii) : ascii :=
  let n := N_of_ascii c in
  if ((65 <=? n) && (n <=? 90))%N then ascii_of_N (n + 32)
  else if ((192 <=? n) && (n <=? 222) && negb (n =? 215))%N
       then ascii_of_N (n + 32)
  else c.

(** [s.lower()] *)
Definition lower (s : pystr) : pystr := map lower_char s.

(** [c.isspace()] on code points below 256. *)
Definition isspace (c : ascii) : bool :=
  let n := N_of_ascii c in
  (((9 <=? n) && (n <=? 13)) || ((28 <=? n) && (n <=? 32))
   || (n =? 133) || (n =? 160))%N.

(** [s.lstrip()] *)
Fixpoint lstrip (s : pystr) : pystr :=
  match s with
  | [] => []
  | c :: t => if isspace c then lstrip t else s
  end.

(** [s.rstrip()] *)
Definition rstrip (s : pystr) : pystr := rev (lstrip (rev s)).

(** [s.strip()] *)
Definition strip (s : pystr) : pystr := rstrip (lstrip s).

(** [s.split(sep)] for a one-character separator: never empty. *)
Fixpoint split (sep : ascii) (s : pystr) : list pystr :=
  match s with
  | [] => [[]]
  | c :: t =>
      if Ascii.eqb c sep then [] :: split sep t
      else match split sep t with
           | [] => [[c]]
           | l :: ls => (c :: l) :: ls
           end
  end.

(** [s.split(sep, 1)[1]] when [sep in s]: what follows the first [sep]. *)
Fixpoint after_first (sep : ascii) (s : pystr) : pystr :=
  match s with
  | [] => []
  | c :: t => if Ascii.eqb c sep then t else after_first sep t
  end.

(** [sep.join(parts)] *)
Fixpoint join (sep : pystr) (parts : list pystr) : pystr :=
  match parts with
  | [] => []
  | [p] => p
  | p :: ps => p ++ sep ++ join sep ps
  end.

(** [s == t] *)
Definition str_eqb (s t : pystr) : bool :=
  if list_eq_dec ascii_dec s t then true else false.

(** [str(n)] for a natural number. *)
Definition str_of_nat (n : nat) : pystr :=
  lit (NilZero.string_of_uint (Nat.to_uint n)).

(** [str(z)] for an integer. *)
Definition str_of_Z (z : Z) : pystr :=
  lit (NilZero.string_of_int (Z.to_int z)).

Definition newline : ascii := "010"%char.

Definition colon : ascii := ":"%char.

End Py.
Import Py.

(** ** Outcomes of a call *)

Inductive exn : Type :=
| IndexError
| KeyError
| AttributeError.

Inductive outcome (A : Type) : Type :=
| Returned (a : A)
| Raised (e : exn).
Arguments Returned {A} a.
Arguments Raised {A} e.

Definition bind {A B} (m : outcome A) (k : A -> outcome B) : outcome B :=
  match m with
  | Returned a => k a
  | Raised e => Raised e
  end.

Notation "x <- m ;; k" := (bind m (fun x => k))
  (at level 61, m at next level, right associativity).

(** ** Python dictionaries, in insertion order *)

Module Dict.
Section Dict.
Variables K V : Type.
Variable eqb : K -> K -> bool.

Definition dict := list (K * V).

(** [d.get(k)], [None] when [k not in d]. *)
Fixpoint get (k : K) (d : dict) : option V :=
  match d with
  | [] => None
  | (k', v) :: d' => if eqb k k' then Some v else get k d'
  end.

(** [d[k] = v]: overwrite in place, or append a new key. *)
Fixpoint set (k : K) (v : V) (d : dict) : dict :=
  match d with
  | [] => [(k, v)]
  | (k', v') :: d' =>
      if eqb k k' then (k', v) :: d' else (k', v') :: set k v d'
  end.

Definition keys (d : dict) : list K := map fst d.
Definition values (d : dict) : list V := map snd d.
End Dict.
End Dict.

(** ** The formatter: [format_deep_scrape_output] *)

Module Formatter.

(** [sections]: header keyword -> display name, in the order of the source. *)
Definition sections : Dict.dict pystr pystr :=
  [ (lit "Phone Number", lit "Phone Numbers");
    (lit "Email", lit "Emails");
    (lit "Supplier Details", lit "Supplier Details");
    (lit "Location", lit "Location");
    (lit "Product Pricing", lit "Product Pricing");
    (lit "ISO Certifications", lit "ISO Certifications");
    (lit "Manufacturing Process Summary",
     lit "Manufacturing Process Summary") ].

Definition marker : pystr := lit "Multiple Suppliers Detected on this Website".
Definition sentinel : pystr := lit "No structured data extracted.".

(** The local variables the scanning loop updates. *)
Record locals : Type := Locals {
  formatted_output : list pystr;
  current_section : option pystr;
  supplier_index : nat;
  supplier_data : Dict.dict nat (list pystr)
}.

(** [f"**{display_name}**: {content}"] *)
Definition section_line (display_name content : pystr) : pystr :=
  lit "**" ++ display_name ++ lit "**: " ++ content.

(** [f"**Supplier {supplier_index} Details**: {content}"] *)
Definition supplier_line (idx : nat) (content : pystr) : pystr :=
  lit "**Supplier " ++ str_of_nat idx ++ lit " Details**: " ++ content.

(** [f"  - {line}"] *)
Definition bullet_line (line : pystr) : pystr := lit "  - " ++ line.

(** [line in lines if "supplier details" in line.lower()] *)
Definition mentions_supplier_details (line : pystr) : bool :=
  contains (lit "supplier details") (lower line).

Definition supplier_lines (lines : list pystr) : list pystr :=
  filter mentions_supplier_details lines.

(** The [for key, display_name in sections.items()] loop with its [break]:
    the first entry whose lowercased key occurs in the lowercased line;
    [None] is the loop's [else] branch. *)
Definition match_section (line : pystr) : option (pystr * pystr) :=
  find (fun kv => contains (lower (fst kv)) (lower line)) sections.

(** [line.split(':', 1)[1].strip() if ':' in line
     else line[len(key):].strip()] *)
Definition header_content (key line : pystr) : pystr :=
  if has_char colon line then strip (after_first colon line)
  else strip (skipn (List.length key) line).

(** [formatted_output[-1] += s] *)
Definition append_to_last (s : pystr) (out : list pystr)
  : outcome (list pystr) :=
  match out with
  | [] => Raised IndexError
  | _ :: _ => Returned (removelast out ++ [last out [] ++ s])
  end.

(** [supplier_data[idx].append(s)] *)
Definition append_to_block (idx : nat) (s : pystr)
           (d : Dict.dict nat (list pystr))
  : outcome (Dict.dict nat (list pystr)) :=
  match Dict.get Nat.eqb idx d with
  | None => Raised KeyError
  | Some block => Returned (Dict.set Nat.eqb idx (block ++ [s]) d)
  end.

Definition nonempty (s : pystr) : bool :=
  match s with [] => false | _ :: _ => true end.

(** The body of [for line in lines]. *)
Definition scan_line (multiple_suppliers : bool) (st : locals)
           (raw : pystr) : outcome locals :=
  let line := strip raw in
  if negb (nonempty line) then Returned st
  else
    match match_section line with
    | Some (key, display_name) =>
        let content := header_content key line in
        if contains (lit "Supplier Details") display_name
           && multiple_suppliers
        then
          let idx := S (supplier_index st) in
          Returned
            (Locals (formatted_output st) (Some display_name) idx
               (Dict.set Nat.eqb idx [supplier_line idx content]
                  (supplier_data st)))
        else
          Returned
            (Locals (formatted_output st ++ [section_line display_name content])
               (Some display_name) (supplier_index st) (supplier_data st))
    | None =>
        match current_section st with
        | Some cur =>
            if nonempty cur && nonempty line then
              if multiple_suppliers && str_eqb cur (lit "Supplier Details")
              then
                d <- append_to_block (supplier_index st) (bullet_line line)
                       (supplier_data st) ;;
                Returned
                  (Locals (formatted_output st) (current_section st)
                     (supplier_index st) d)
              else
                out <- append_to_last (lit " " ++ line)
                         (formatted_output st) ;;
                Returned
                  (Locals out (current_section st) (supplier_index st)
                     (supplier_data st))
            else Returned st
        | None => Returned st
        end
    end.

(** [for line in lines: ...] *)
Fixpoint scan (multiple_suppliers : bool) (st : locals)
         (lines : list pystr) : outcome locals :=
  match lines with
  | [] => Returned st
  | raw :: rest =>
      st' <- scan_line multiple_suppliers st raw ;;
      scan multiple_suppliers st' rest
  end.

(** [for idx, details in supplier_data.items():
       formatted_output.extend(details)] *)
Definition extend_with_blocks (out : list pystr)
           (d : Dict.dict nat (list pystr)) : list pystr :=
  fold_left (fun acc kv => acc ++ snd kv) d out.

(** The canned message of a missing section. *)
Definition default_message (display_name : pystr) : pystr :=
  if str_eqb display_name (lit "ISO Certifications")
  then lit "No ISO certifications mentioned."
  else if str_eqb display_name (lit "Manufacturing Process Summary")
  then lit "Please contact the supplier for details."
  else if str_eqb display_name (lit "Location")
  then lit "Not specified in the text."
  else lit "Not found in the text.".

(** [any(display_name in item for item in formatted_output)] *)
Definition present (display_name : pystr) (out : list pystr) : bool :=
  existsb (contains display_name) out.

(** One turn of [for display_name in sections.values()]. *)
Definition pad_one (out : list pystr) (display_name : pystr) : list pystr :=
  if negb (present display_name out)
  then out ++ [section_line display_name (default_message display_name)]
  else out.

Definition pad_defaults (out : list pystr) : list pystr :=
  fold_left pad_one (Dict.values sections) out.

(** The list [formatted_output] after the scan and the copy of the
    supplier blocks, before the defaults are added. *)
Definition scanned_lines (result : pystr) : outcome (list pystr) :=
  let lines := split newline result in
  let multiple_suppliers := 1 <? List.length (supplier_lines lines) in
  let start :=
    Locals (if multiple_suppliers then [marker] else []) None 0 [] in
  st <- scan multiple_suppliers start lines ;;
  Returned
    (if multiple_suppliers
     then extend_with_blocks (formatted_output st) (supplier_data st)
     else formatted_output st).

(** The list [formatted_output] as it stands before the final join. *)
Definition format_lines (result : pystr) : outcome (list pystr) :=
  out <- scanned_lines result ;;
  Returned (pad_defaults out).

Definition format_deep_scrape_output (result : pystr) : outcome pystr :=
  if contains (lit "Error") result then Returned result
  else
    out <- format_lines result ;;
    Returned
      (match out with
       | [] => sentinel
       | _ :: _ => join [newline] out
       end).

(** *** Notions used to state the properties *)

Definition display_names : list pystr := Dict.values sections.

(** The default line of a section. *)
Definition default_line (display_name : pystr) : pystr :=
  section_line display_name (default_message display_name).

(** The default lines that a list of lines lacks, in the order of
    [sections]. *)
Definition defaults_for (body : list pystr) : list pystr :=
  map default_line
      (filter (fun display_name => negb (present display_name body))
              display_names).



(** The block that a "Supplier Details" header line opens under the
    index [idx], followed by its continuation lines. *)
Definition supplier_block (idx : nat) (header : pystr)
           (continuation : list pystr) : list pystr :=
  supplier_line idx (header_content (lit "Supplier Details") (strip header))
  :: map bullet_line continuation.

(** The entries of a section in a formatted text: the lines that begin
    with its bold title. *)
Definition section_entries (display_name text : pystr) : list pystr :=
  filter (startswith (lit "**" ++ display_name ++ lit "**: "))
         (split newline text).

(** No default line of a name holds a name that comes later in the list:
    adding it does not hide a later section. *)
Fixpoint independent (names : list pystr) : bool :=
  match names with
  | [] => true
  | d :: rest =>
      forallb (fun d' => negb (contains d' (default_line d))) rest
      && independent rest
  end.

(** What holds of the locals between two turns of the scanning loop, so
    that neither [formatted_output[-1]] nor [supplier_data[supplier_index]]
    can fail. *)
Definition good (multiple_suppliers : bool) (st : locals) : Prop :=
  (multiple_suppliers = true -> formatted_output st <> [])
  /\ forall cur,
      current_section st = Some cur ->
      (multiple_suppliers && str_eqb cur (lit "Supplier Details") = true ->
       Dict.get Nat.eqb (supplier_index st) (supplier_data st) <> None)
      /\ (multiple_suppliers = false -> formatted_output st <> []).

(** A line of the flat list in the multiple-suppliers mode: an entry of a
    section other than "Supplier Details". *)
Definition flat_entry (line : pystr) : Prop :=
  exists d,
    In d display_names
    /\ d <> lit "Supplier Details"
    /\ startswith (lit "**" ++ d ++ lit "**: ") line = true.

(** [supplier_data] holds one block for each of the header lines
    [headers], under the indices 1, 2, ... in their order. *)
Definition blocks_for (headers : list pystr)
           (d : Dict.dict nat (list pystr)) : Prop :=
  Dict.keys d = seq 1 (List.length headers)
  /\ Forall2 (fun header kv =>
                exists continuation,
                  snd kv = supplier_block (fst kv) header continuation)
             headers d.

(** The locals in the multiple-suppliers mode after the lines whose
    "Supplier Details" headers are [seen]. *)
Definition scanning (seen : list pystr) (st : locals) : Prop :=
  exists flat,
    formatted_output st = marker :: flat
    /\ Forall flat_entry flat
    /\ supplier_index st = List.length seen
    /\ blocks_for seen (supplier_data st)
    /\ forall cur,
        current_section st = Some cur ->
        (str_eqb cur (lit "Supplier Details") = true -> seen <> [])
        /\ (str_eqb cur (lit "Supplier Details") = false -> flat <> []).

(** A line that mentions "supplier details" and neither of the keywords
    that are looked for before it. *)
Definition clean_header (raw : pystr) : Prop :=
  contains (lit "phone number") (lower raw) = false
  /\ contains (lit "email") (lower raw) = false.





End Formatter.
Import Formatter.

(** ** Effects: the trace of what the program does, and the cache *)

Module Effects.

(** What leaves the process, in the order it happens. *)
Inductive event : Type :=
| Get (url : pystr)              (* requests.get(url, headers, timeout=10) *)
| Sleep (seconds : nat)          (* time.sleep(seconds) *)
| StWarning (msg : pystr)        (* st.warning(msg) *)
| StError (msg : pystr)          (* st.error(msg) *)
| Complete (content : pystr).    (* openai.ChatCompletion.create(...) *)

Definition is_get (e : event) : bool :=
  match e with Get _ => true | _ => false end.

Definition is_complete (e : event) : bool :=
  match e with Complete _ => true | _ => false end.

(** What [requests.get] gives back. *)
Inductive http_reply : Type :=
| Response (status_code : Z) (text : pystr)
| RequestException (e : pystr).

(** What [openai.ChatCompletion.create] gives back. *)
Inductive completion : Type :=
| Choice (content : pystr)
| ApiException (e : pystr).

(** The value [deep_scrape_website] returns. *)
Definition extraction : Type := (pystr * option pystr)%type.

(** The state of the process: the trace so far, and the table that
    [lru_cache] keeps, most recently used entry first. *)
Record state : Type := State {
  trace : list event;
  cache : list (pystr * extraction)
}.

Definition gets (s : state) : nat := List.length (filter is_get (trace s)).
Definition completions (s : state) : nat :=
  List.length (filter is_complete (trace s)).

(** Computations that read and extend the state and may raise. *)
Definition M (A : Type) : Type := state -> outcome A * state.

Definition ret {A} (a : A) : M A := fun s => (Returned a, s).

Definition raise {A} (e : exn) : M A := fun s => (Raised e, s).

Definition mbind {A B} (m : M A) (k : A -> M B) : M B :=
  fun s =>
    match m s with
    | (Returned a, s') => k a s'
    | (Raised e, s') => (Raised e, s')
    end.

Definition emit (e : event) : M unit :=
  fun s => (Returned tt, State (trace s ++ [e]) (cache s)).

Definition lift {A} (o : outcome A) : M A := fun s => (o, s).

End Effects.
Import Effects.

Notation "x <~ m ;; k" := (mbind m (fun x => k))
  (at level 61, m at next level, right associativity).
Notation "m >> k" := (mbind m (fun _ => k))
  (at level 61, right associativity).

(** ** The retriever: [extract_webpage_text] *)

Section Retriever.

(** [http n url]: the reply to the GET of [url] issued after [n] earlier
    GETs of the process. *)
Variable http : nat -> pystr -> http_reply.

(** [BeautifulSoup(html, 'html.parser').get_text()] *)
Variable get_text : pystr -> pystr.

Definition requests_get (url : pystr) : M http_reply :=
  fun s => (Returned (http (gets s) url),
            State (trace s ++ [Get url]) (cache s)).

Definition access_denied (url : pystr) (attempt retries : nat) : pystr :=
  lit "Access denied for " ++ url ++ lit ". Retrying... ("
    ++ str_of_nat (attempt + 1) ++ lit "/" ++ str_of_nat retries ++ lit ")".

Definition failed_status (status_code : Z) (url : pystr) : pystr :=
  lit "Failed with status code " ++ str_of_Z status_code
    ++ lit " for " ++ url.

Definition retrying_in_3 (e : pystr) : pystr :=
  lit "Error: " ++ e ++ lit ". Retrying in 3 seconds...".

Definition failed_after (url : pystr) (retries : nat) : pystr :=
  lit "Failed to retrieve " ++ url ++ lit " after "
    ++ str_of_nat retries ++ lit " attempts.".

(** [for attempt in range(retries)] with [todo] turns left, then the
    two statements after the loop. *)
Fixpoint attempts (url : pystr) (retries todo : nat)
  : M (option pystr) :=
  match todo with
  | O => emit (StError (failed_after url retries)) >> ret None
  | S todo' =>
      let attempt := retries - todo in
      response <~ requests_get url ;;
      match response with
      | Response status_code text =>
          if (status_code =? 200)%Z then ret (Some (get_text text))
          else if ((status_code =? 403) || (status_code =? 429))%Z then
            emit (StWarning (access_denied url attempt retries)) >>
            emit (Sleep 5) >>
            attempts url retries todo'
          else
            emit (StError (failed_status status_code url)) >> ret None
      | RequestException e =>
          emit (StWarning (retrying_in_3 e)) >>
          emit (Sleep 3) >>
          attempts url retries todo'
      end
  end.

Definition extract_webpage_text (url : pystr) (retries : nat)
  : M (option pystr) :=
  attempts url retries retries.

End Retriever.

(** ** The completion service: [chat_with_openai] *)

Section Chat.

(** [complete n content]: the reply to the completion request with user
    message [content] issued after [n] earlier requests. *)
Variable complete : nat -> pystr -> completion.

Definition api_error_reply : pystr :=
  lit "Sorry, I couldn't process that request due to an API error.".

Definition chat_with_openai (user_input context : pystr) : M pystr :=
  let content :=
    lit "Context: " ++ context ++ [newline; newline]
      ++ lit "Question: " ++ user_input in
  fun s =>
    let s' := State (trace s ++ [Complete content]) (cache s) in
    match complete (completions s) content with
    | Choice text => (Returned (strip text), s')
    | ApiException e =>
        (Returned api_error_reply,
         State (trace s' ++ [StError (lit "OpenAI API error: " ++ e)])
               (cache s'))
    end.

End Chat.

(** ** The ranking normaliser: [rank_suppliers] *)

(** A value as [json.loads] builds it.  Python's [float] is taken as an
    exact rational: the model has no rounding error, no NaN or infinity,
    and no overflow in [float(int)]. *)
#[warnings="-register-all"]
Inductive json : Type :=
| JNull
| JBool (b : bool)
| JInt (z : Z)
| JFloat (q : Q)
| JStr (s : pystr)
| JList (items : list json)
| JDict (items : list (pystr * json)).

Module Ranking.

Definition score_map : Type := Dict.dict pystr Q.
Definition ranking : Type := Dict.dict pystr score_map.

Definition criteria_weights : Dict.dict pystr Q :=
  [ (lit "product_quality", 0.25%Q);
    (lit "certifications", 0.15%Q);
    (lit "customer_reviews", 0.20%Q);
    (lit "price_competitiveness", 0.15%Q);
    (lit "manufacturing_capabilities", 0.10%Q);
    (lit "reliability", 0.10%Q);
    (lit "innovation", 0.05%Q) ].

Definition criteria : list pystr := Dict.keys criteria_weights.

(** [isinstance(v, (int, float))]; [bool] is a subclass of [int]. *)
Definition is_number (v : json) : bool :=
  match v with
  | JInt _ | JFloat _ | JBool _ => true
  | _ => false
  end.

(** [float(v)] on such a value. *)
Definition to_float (v : json) : Q :=
  match v with
  | JInt z => inject_Z z
  | JFloat q => q
  | JBool true => 1%Q
  | _ => 0%Q
  end.

Definition Qltb (a b : Q) : bool := negb (Qle_bool b a).

(** [max(a, b)]: the first argument unless the second is greater. *)
Definition py_max (a b : Q) : Q := if Qltb a b then b else a.

(** [min(a, b)]: the first argument unless the second is smaller. *)
Definition py_min (a b : Q) : Q := if Qltb b a then b else a.

(** [min(5, max(0, x))] *)
Definition clamp (x : Q) : Q := py_min 5%Q (py_max 0%Q x).

(** Rounding to the nearest integer, ties to even. *)
Definition round_half_even (q : Q) : Z :=
  let f := Qfloor q in
  match Qcompare (q - inject_Z f) (1 # 2) with
  | Lt => f
  | Gt => (f + 1)%Z
  | Eq => if Z.even f then f else (f + 1)%Z
  end.

(** [round(q, 1)] *)
Definition round1 (q : Q) : Q := Qred (round_half_even (q * 10) # 10).

(** The body of [for criterion in criteria_weights.keys()]. *)
Definition clean_one (scores : Dict.dict pystr json)
           (cleaned_scores : score_map) (criterion : pystr) : score_map :=
  match Dict.get str_eqb criterion scores with
  | Some v =>
      if is_number v
      then Dict.set str_eqb criterion (clamp (to_float v)) cleaned_scores
      else Dict.set str_eqb criterion 3.0%Q cleaned_scores
  | None => Dict.set str_eqb criterion 3.0%Q cleaned_scores
  end.

Definition clean_criteria (scores : Dict.dict pystr json) : score_map :=
  fold_left (clean_one scores) criteria [].

(** What the loop stores for one criterion: the clamped score when the
    reply gives a number for it, 3.0 otherwise. *)
Definition stored_score (scores : Dict.dict pystr json) (criterion : pystr)
  : Q :=
  match Dict.get str_eqb criterion scores with
  | Some v => if is_number v then clamp (to_float v) else 3.0%Q
  | None => 3.0%Q
  end.

(** The weighted total of a reply's scores, summed in the order of
    [criteria_weights] from 0 as [sum] does. *)
Definition weighted_total (scores : Dict.dict pystr json) : Q :=
  fold_left (fun acc cw => (acc + stored_score scores (fst cw) * snd cw)%Q)
            criteria_weights 0%Q.


(** [sum(cleaned_scores[criterion] * weight
         for criterion, weight in criteria_weights.items())] *)
Fixpoint weighted_sum (cleaned_scores : score_map)
         (items : Dict.dict pystr Q) (acc : Q) : outcome Q :=
  match items with
  | [] => Returned acc
  | (criterion, weight) :: rest =>
      match Dict.get str_eqb criterion cleaned_scores with
      | None => Raised KeyError
      | Some score => weighted_sum cleaned_scores rest (acc + score * weight)%Q
      end
  end.

(** The body of [if isinstance(scores, dict)]. *)
Definition clean_scores (scores : Dict.dict pystr json) : outcome score_map :=
  let cleaned_scores := clean_criteria scores in
  weighted_total <- weighted_sum cleaned_scores criteria_weights 0%Q ;;
  Returned (Dict.set str_eqb (lit "total") (round1 weighted_total)
              cleaned_scores).

(** [for supplier, scores in ranking_data.items()] *)
Fixpoint clean_ranking (items : Dict.dict pystr json) (cleaned_data : ranking)
  : outcome ranking :=
  match items with
  | [] => Returned cleaned_data
  | (supplier, JDict scores) :: rest =>
      cleaned_scores <- clean_scores scores ;;
      clean_ranking rest (Dict.set str_eqb supplier cleaned_scores cleaned_data)
  | (_, _) :: rest => clean_ranking rest cleaned_data
  end.

(** [s] from its first [c] on. *)
Fixpoint from_first (c : ascii) (s : pystr) : option pystr :=
  match s with
  | [] => None
  | a :: t => if Ascii.eqb a c then Some s else from_first c t
  end.

(** [s] up to its last [c]. *)
Definition upto_last (c : ascii) (s : pystr) : option pystr :=
  match from_first c (rev s) with
  | None => None
  | Some r => Some (rev r)
  end.

(** [re.search(r'\{.*\}', response, re.DOTALL)], then [.group(0)]: the
    span from the first opening brace to the last closing brace after it. *)
Definition brace_span (response : pystr) : option pystr :=
  match from_first "{"%char response with
  | Some (open :: rest) =>
      match upto_last "}"%char rest with
      | Some body => Some (open :: body)
      | None => None
      end
  | _ => None
  end.


Definition query (text : pystr) : pystr :=
  lit "Based on the following supplier information, rank them numerically from best to worst considering "
  ++ lit "the following criteria: product quality (consistency, durability), certifications (ISO, industry standards), "
  ++ lit "customer reviews (sentiment and volume, if available), price competitiveness (relative to market), "
  ++ lit "manufacturing capabilities (scale, technology), reliability (delivery consistency, uptime), and innovation "
  ++ lit "(R&D, patents, technology adoption). Provide structured JSON output ONLY with supplier names as keys and "
  ++ lit "their respective ranking scores out of 5 for each category. If a criterion cannot be evaluated due to missing "
  ++ lit "data, assign a neutral score of 3. Ensure the response is strictly valid JSON with no additional text."
  ++ [newline; newline]
  ++ lit "Supplier Info: " ++ firstn 5000 text.

Definition no_json_found : pystr :=
  lit "No valid JSON found in ranking response.".
Definition unable_to_parse : pystr :=
  lit "Unable to parse JSON response from OpenAI for ranking.".




Section Rank.

Variable complete : nat -> pystr -> completion.

(** [json.loads]; [None] stands for [json.JSONDecodeError]. *)
Variable json_loads : pystr -> option json.

(** What follows [response = chat_with_openai(query)]. *)
Definition rank_response (response : pystr) : M (option ranking) :=
  match brace_span response with
  | Some span =>
      match json_loads span with
      | Some (JDict ranking_data) =>
          cleaned_data <~ lift (clean_ranking ranking_data []) ;;
          ret (Some cleaned_data)
      | Some _ => raise AttributeError
      | None => emit (StError unable_to_parse) >> ret None
      end
  | None => emit (StError no_json_found) >> ret None
  end.

Definition rank_suppliers (text : pystr) : M (option ranking) :=
  response <~ chat_with_openai complete (query text) [] ;;
  rank_response response.

End Rank.

End Ranking.
Import Ranking.

(** ** Deep extraction: [deep_scrape_website] under [lru_cache] *)

Module Cache.

(** [maxsize] of the decorator. *)
Definition maxsize : nat := 128.

Definition table : Type := list (pystr * extraction).

Definition lookup (url : pystr) (t : table) : option extraction :=
  Dict.get str_eqb url t.

(** A hit makes the entry the most recently used one. *)
Definition touch (url : pystr) (v : extraction) (t : table) : table :=
  (url, v) :: filter (fun kv => negb (str_eqb url (fst kv))) t.

(** A miss stores the new entry and drops the least recently used one
    when the table is full. *)
Definition store (url : pystr) (v : extraction) (t : table) : table :=
  firstn maxsize ((url, v) :: t).

(** [@lru_cache(maxsize=128)] around a function of the URL: a result is
    stored when the function returns, not when it raises. *)
Definition lru_cache (f : pystr -> M extraction) (url : pystr)
  : M extraction :=
  fun s =>
    match lookup url (cache s) with
    | Some v => (Returned v, State (trace s) (touch url v (cache s)))
    | None =>
        match f url s with
        | (Returned v, s') =>
            (Returned v, State (trace s') (store url v (cache s')))
        | (Raised e, s') => (Raised e, s')
        end
    end.

(** The state after calling [f] on each URL in turn, whatever the calls
    give back. *)
Fixpoint after_calls (f : pystr -> M extraction) (urls : list pystr)
         (s : state) : state :=
  match urls with
  | [] => s
  | url :: rest => after_calls f rest (snd (f url s))
  end.

(** The URLs of a list other than [url], each counted once. *)
Definition distinct_others (url : pystr) (urls : list pystr) : list pystr :=
  nodup (list_eq_dec ascii_dec) (remove (list_eq_dec ascii_dec) url urls).

(** The entry of [url] stays in the table, behind entries of distinct
    other URLs drawn from [universe]. *)
Definition kept (universe : list pystr) (url : pystr) (v : extraction)
           (t : table) : Prop :=
  exists pre post,
    t = pre ++ (url, v) :: post
    /\ ~ In url (Dict.keys pre)
    /\ NoDup (Dict.keys pre)
    /\ incl (Dict.keys pre) universe.

End Cache.

Section DeepScrape.

Variable http : nat -> pystr -> http_reply.
Variable get_text : pystr -> pystr.
Variable complete : nat -> pystr -> completion.

Definition extraction_prompt (truncated_text : pystr) : pystr :=
  lit "Extract and analyze details from this text: " ++ truncated_text
  ++ lit ". "
  ++ lit "If multiple suppliers are mentioned, list each separately with their details. "
  ++ lit "Provide the output in a structured format with the following sections:"
  ++ [newline]
  ++ lit "- Phone Number: List any phone numbers found." ++ [newline]
  ++ lit "- Email: List any email addresses found." ++ [newline]
  ++ lit "- Supplier Details: Include company name, address, or contact person if mentioned; if multiple suppliers, list each separately."
  ++ [newline]
  ++ lit "- Location: Specify the specific location of the supplier if available; if not, state 'Not specified in the text.'"
  ++ [newline]
  ++ lit "- Product Pricing: List prices of products mentioned."
  ++ [newline]
  ++ lit "- ISO Certifications: Specify any ISO certifications if present; if none, state 'No ISO certifications mentioned.'"
  ++ [newline]
  ++ lit "- Manufacturing Process Summary: Summarize specific manufacturing process details if available; if not, state 'PLEASE CONTACT THE SUPPLIER FOR DETAILS'.".

Definition summary_prompt (truncated_text : pystr) : pystr :=
  lit "Summarize the following text in 200 words or less: "
  ++ truncated_text.

Definition no_data : extraction :=
  (lit "No data extracted. The website might be blocking requests.", None).

(** The function under the decorator. *)
Definition deep_scrape_website_wrapped (url : pystr) : M extraction :=
  data_values <~ extract_webpage_text http get_text url 3 ;;
  match data_values with
  | Some ((_ :: _) as text) =>
      let truncated_text := firstn 5000 text in
      result <~ chat_with_openai complete
                  (extraction_prompt truncated_text) truncated_text ;;
      formatted_result <~ lift (format_deep_scrape_output result) ;;
      summary <~ chat_with_openai complete
                   (summary_prompt truncated_text) truncated_text ;;
      ret (formatted_result, Some summary)
  | _ => ret no_data
  end.

Definition deep_scrape_website : pystr -> M extraction :=
  Cache.lru_cache deep_scrape_website_wrapped.

End DeepScrape.

(** ** The "Rank" button of a row *)

Module Ui.







End Ui.
Import Ui.

Section RankButton.

Variable http : nat -> pystr -> http_reply.
Variable get_text : pystr -> pystr.
Variable complete : nat -> pystr -> completion.
Variable json_loads : pystr -> option json.


End RankButton.

(** ** The name of a supplier: [get_company_name_from_url] *)

Module CompanyName.

Definition MULTI_SUPPLIER_SITES : list pystr :=
  [ lit "alibaba.com";
    lit "thomasnet.com";
    lit "indiamart.com";
    lit "made-in-china.com";
    lit "globalsources.com" ].

(** [re.sub(r'^https?://', '', url)]: the pattern is anchored at the
    start, so at most one occurrence goes. *)
Definition sub_scheme (url : pystr) : pystr :=
  if startswith (lit "http://") url then skipn 7 url
  else if startswith (lit "https://") url then skipn 8 url
  else url.

(** [re.sub(r'^www\.', '', url)] *)
Definition sub_www (url : pystr) : pystr :=
  if startswith (lit "www.") url then skipn 4 url else url.

(** [re.split(r'[./]', url)[0]]: what comes before the first dot or
    slash. *)
Fixpoint first_field (url : pystr) : pystr :=
  match url with
  | [] => []
  | c :: rest =>
      if Ascii.eqb c "."%char || Ascii.eqb c "/"%char then []
      else c :: first_field rest
  end.

Definition multiple_suppliers_found : pystr :=
  lit " (Multiple Suppliers Found)".

Definition get_company_name_from_url (url : pystr) : pystr :=
  let url := sub_scheme url in
  let url := sub_www url in
  let domain := first_field url in
  if existsb (fun site => contains site (lower url)) MULTI_SUPPLIER_SITES
  then domain ++ multiple_suppliers_found
  else domain.

(** *** Notions used to state the properties *)

(** A URL that mentions one of the marketplaces, in any case and at any
    place. *)
Definition on_marketplace (url : pystr) : bool :=
  existsb (fun site => contains site (lower url)) MULTI_SUPPLIER_SITES.

(** A text that is empty or opens with a dot or a slash: what can follow
    the first field of a URL. *)
Definition field_end (rest : pystr) : bool :=
  match rest with
  | [] => true
  | c :: _ => Ascii.eqb c "."%char || Ascii.eqb c "/"%char
  end.

(** A first field of a host: it holds neither dot nor slash, and is none
    of the fields that the two substitutions look for. *)
Definition host_field (name : pystr) : bool :=
  negb (has_char "."%char name) && negb (has_char "/"%char name)
  && negb (str_eqb name (lit "www"))
  && negb (str_eqb name (lit "http:"))
  && negb (str_eqb name (lit "https:")).

End CompanyName.
Import CompanyName.

(** ** What a trace shows *)

Module Observe.

(** The seconds that an event spends in [time.sleep]. *)
Definition sleep_of (e : event) : nat :=
  match e with
  | Sleep seconds => seconds
  | _ => 0
  end.

Definition total_sleep (es : list event) : nat := list_sum (map sleep_of es).

Definition count_gets (es : list event) : nat :=
  List.length (filter is_get es).

Definition count_completions (es : list event) : nat :=
  List.length (filter is_complete es).

(** A reply after which the retriever tries again: 403, 429, or an
    exception of the transport. *)
Definition retryable (r : http_reply) : bool :=
  match r with
  | Response status_code _ => ((status_code =? 403) || (status_code =? 429))%Z
  | RequestException _ => true
  end.

(** The user message that [chat_with_openai] sends. *)
Definition chat_content (user_input context : pystr) : pystr :=
  lit "Context: " ++ context ++ [newline; newline]
    ++ lit "Question: " ++ user_input.

End Observe.
Import Observe.

(** ** What a ranking shows *)

Module RankingView.




End RankingView.
Import RankingView.

(** ** What a formatted text shows *)

Module FormatterView.

(** [multiple_suppliers] as the formatter computes it from its input. *)
Definition multiple_suppliers (result : pystr) : bool :=
  1 <? List.length (supplier_lines (split newline result)).

(** A line that opens with the two asterisks of a bold title. *)
Definition bold (line : pystr) : bool := startswith (lit "**") line.

(** What holds of [formatted_output] between two turns of the loop: in
    the multiple-suppliers mode the marker stays first and untouched, and
    outside it each line opens with a bold title. *)
Definition shaped (multi : bool) (st : locals) : Prop :=
  if multi
  then exists flat,
         formatted_output st = marker :: flat
         /\ forall cur,
             current_section st = Some cur ->
             str_eqb cur (lit "Supplier Details") = false -> flat <> []
  else forallb bold (formatted_output st) = true.

(** A line that the loop passes over while no section is open: it is
    blank, or none of the seven keywords occurs in it. *)
Definition passed_over (raw : pystr) : bool :=
  negb (nonempty (strip raw))
  || match match_section (strip raw) with
     | Some _ => false
     | None => true
     end.

(** A line that continues the entry before it: it is not blank, and
    none of the seven keywords occurs in it. *)
Definition continuation (raw : pystr) : bool :=
  nonempty (strip raw)
  && match match_section (strip raw) with
     | Some _ => false
     | None => true
     end.

(** An entry with its continuation lines, as the loop joins them. *)
Definition joined_entry (display_name content : pystr)
           (continuations : list pystr) : pystr :=
  section_line display_name content
  ++ List.concat (map (fun raw => lit " " ++ strip raw) continuations).

End FormatterView.
Import FormatterView.

(** ** What the table of the cache shows *)

Module CacheView.

(** The table as [lru_cache] keeps it: at most [maxsize] entries, one for
    each URL. *)
Definition bounded (t : Cache.table) : Prop :=
  List.length t <= Cache.maxsize /\ NoDup (Dict.keys t).

(** The text to which the formatter pads an extraction without any
    section: the seven default lines. *)
Definition all_defaults : pystr :=
  join [newline] (map default_line display_names).

End CacheView.
Import CacheView.

(** * Properties *)

(** ** The retriever *)

Section RetrieverFacts.

Variable http : nat -> pystr -> http_reply.
Variable get_text : pystr -> pystr.

Lemma gets_emit (t : list event) (c : list (pystr * extraction))
      (es : list event) :
  gets (State (t ++ es) c)
  = gets (State t c) + List.length (filter is_get es).
Proof.
  unfold gets; simpl. now rewrite filter_app, length_app.
Qed.

(** A 403 or a 429 costs one turn of the loop: a warning, five seconds,
    and the next attempt. *)
Lemma attempts_denied (url : pystr) (retries todo : nat) (s : state)
      (code : Z) (body : pystr) :
  http (gets s) url = Response code body ->
  code = 403%Z \/ code = 429%Z ->
  attempts http get_text url retries (S todo) s
  = attempts http get_text url retries todo
      (State (trace s ++ [Get url;
                          StWarning
                            (access_denied url (retries - S todo) retries);
                          Sleep 5])
             (cache s)).
Proof.
  intros Hreply Hcode.
  cbn [attempts]. unfold mbind at 1, requests_get. rewrite Hreply.
  assert (H200 : (code =? 200)%Z = false) by (destruct Hcode; subst; reflexivity).
  assert (Hden : ((code =? 403) || (code =? 429))%Z = true)
    by (destruct Hcode; subst; reflexivity).
  rewrite H200, Hden. unfold mbind, emit; cbn [trace cache].
  now rewrite <- !app_assoc.
Qed.

(** Any other status but 200 ends the call at once. *)
Lemma attempts_hard_failure (url : pystr) (retries todo : nat) (s : state)
      (code : Z) (body : pystr) :
  http (gets s) url = Response code body ->
  code <> 200%Z -> code <> 403%Z -> code <> 429%Z ->
  attempts http get_text url retries (S todo) s
  = (Returned None,
     State (trace s ++ [Get url; StError (failed_status code url)])
           (cache s)).
Proof.
  intros Hreply H200 H403 H429.
  cbn [attempts]. unfold mbind at 1, requests_get. rewrite Hreply.
  apply Z.eqb_neq in H200, H403, H429. rewrite H200, H403, H429.
  unfold mbind, emit, ret; cbn. now rewrite <- app_assoc.
Qed.

(** The retriever never raises and never touches the cache. *)
Lemma attempts_returns (url : pystr) (retries todo : nat) (s : state) :
  exists r es,
    attempts http get_text url retries todo s
    = (Returned r, State (trace s ++ es) (cache s)).
Proof.
  revert s. induction todo as [|todo IH]; intros s.
  - exists None, [StError (failed_after url retries)]. reflexivity.
  - cbn [attempts]. unfold mbind at 1, requests_get.
    destruct (http (gets s) url) as [code body|e].
    + destruct (code =? 200)%Z.
      * exists (Some (get_text body)), [Get url]. reflexivity.
      * destruct ((code =? 403) || (code =? 429))%Z.
        -- unfold mbind, emit; cbn [trace cache].
           destruct (IH (State (((trace s ++ [Get url]) ++
                                 [StWarning (access_denied url (retries - S todo) retries)])
                                 ++ [Sleep 5]) (cache s)))
             as (r & es & Heq).
           rewrite Heq. cbn [trace cache].
           exists r. eexists. rewrite <- !app_assoc. reflexivity.
        -- exists None. eexists. unfold mbind, emit, ret; cbn.
           rewrite <- app_assoc. reflexivity.
    + unfold mbind, emit; cbn [trace cache].
      destruct (IH (State (((trace s ++ [Get url]) ++
                            [StWarning (retrying_in_3 e)]) ++ [Sleep 3])
                          (cache s)))
        as (r & es & Heq).
      rewrite Heq. cbn [trace cache].
      exists r. eexists. rewrite <- !app_assoc. reflexivity.
Qed.

End RetrieverFacts.

(** C6.  With [retries = 3] and three replies of status 429 in a row the
    retriever issues exactly three GETs, waits five seconds after each of
    them, reports the exhaustion and returns [None]; a status other than
    200, 403 and 429 ends the call after that single GET with an error
    message and [None], whatever the number of retries left. *)
Theorem fetch_rate_limited_then_absent
        (http : nat -> pystr -> http_reply) (get_text : pystr -> pystr)
        (url : pystr) (s : state) :
  ((forall i, i < 3 -> exists body, http (gets s + i) url = Response 429 body) ->
   extract_webpage_text http get_text url 3 s
   = (Returned None,
      State (trace s ++
               [Get url; StWarning (access_denied url 0 3); Sleep 5;
                Get url; StWarning (access_denied url 1 3); Sleep 5;
                Get url; StWarning (access_denied url 2 3); Sleep 5;
                StError (failed_after url 3)])
            (cache s)))
  /\
  (forall (retries : nat) (code : Z) (body : pystr),
      http (gets s) url = Response code body ->
      code <> 200%Z -> code <> 403%Z -> code <> 429%Z ->
      extract_webpage_text http get_text url (S retries) s
      = (Returned None,
         State (trace s ++ [Get url; StError (failed_status code url)])
               (cache s))).
Proof.
  split.
  - intros H429.
    destruct (H429 0) as [b0 H0]; [lia|].
    destruct (H429 1) as [b1 H1]; [lia|].
    destruct (H429 2) as [b2 H2]; [lia|].
    rewrite Nat.add_0_r in H0.
    unfold extract_webpage_text.
    rewrite (attempts_denied http get_text url 3 2 s H0) by now right.
    erewrite attempts_denied; [| rewrite gets_emit; cbn; exact H1 | now right].
    cbn [trace cache]. rewrite <- app_assoc.
    erewrite attempts_denied;
      [| rewrite gets_emit; cbn; exact H2 | now right].
    cbn [trace cache attempts]. unfold mbind, emit, ret; cbn [trace cache].
    rewrite <- !app_assoc. reflexivity.
  - intros retries code body Hreply H200 H403 H429.
    now apply attempts_hard_failure with (body := body).
Qed.

(** C6, at a server that answers 429 to everything, and at one that
    answers 500. *)
Lemma fetch_rate_limited_then_absent_witness :
  let url := lit "http://a.b" in
  let s0 := State [] [] in
  extract_webpage_text (fun _ _ => Response 429 []) (fun t => t) url 3 s0
  = (Returned None,
     State [Get url; StWarning (access_denied url 0 3); Sleep 5;
            Get url; StWarning (access_denied url 1 3); Sleep 5;
            Get url; StWarning (access_denied url 2 3); Sleep 5;
            StError (failed_after url 3)] [])
  /\
  extract_webpage_text (fun _ _ => Response 500 []) (fun t => t) url 3 s0
  = (Returned None,
     State [Get url; StError (failed_status 500 url)] []).
Proof.
  intros url s0. split.
  - apply (proj1 (fetch_rate_limited_then_absent
                    (fun _ _ => Response 429 []) (fun t => t) url s0)).
    intros i _. now exists [].
  - apply (proj2 (fetch_rate_limited_then_absent
                    (fun _ _ => Response 500 []) (fun t => t) url s0)
             2 500%Z []); [reflexivity | lia | lia | lia].
Defined.

(** ** The ranking normaliser: replies without usable JSON *)

Section ChatFacts.

Variable complete : nat -> pystr -> completion.

(** [chat_with_openai] catches what the service raises: it always
    returns a string, and leaves the cache alone. *)
Lemma chat_with_openai_returns (user_input context : pystr) (s : state) :
  exists response es,
    chat_with_openai complete user_input context s
    = (Returned response, State (trace s ++ es) (cache s)).
Proof.
  unfold chat_with_openai.
  destruct (complete _ _) as [text|e]; cbn [trace cache].
  - exists (strip text). eexists. reflexivity.
  - exists api_error_reply. eexists. rewrite <- app_assoc. reflexivity.
Qed.

End ChatFacts.

Section BraceFacts.






End BraceFacts.



(** ** The formatter: error texts *)

(** C10.  A text that contains "Error" comes back as it went in: no line
    is scanned, no block is opened and no default is added. *)
Theorem format_error_text_unchanged (result : pystr) :
  contains (lit "Error") result = true ->
  format_deep_scrape_output result = Returned result.
Proof.
  intros H. unfold format_deep_scrape_output. now rewrite H.
Qed.

(** C10, at an error text that names two suppliers. *)
Lemma format_error_text_unchanged_witness :
  let text := lit "Error 429" ++ [newline] ++ lit "Supplier Details: A"
              ++ [newline] ++ lit "Supplier Details: B" in
  format_deep_scrape_output text = Returned text.
Proof.
  intros text. apply format_error_text_unchanged. reflexivity.
Defined.

(** ** Dictionaries *)

Lemma str_eqb_eq (s t : pystr) : str_eqb s t = true <-> s = t.
Proof.
  unfold str_eqb. destruct (list_eq_dec ascii_dec s t); split; congruence.
Qed.

Lemma str_eqb_refl (s : pystr) : str_eqb s s = true.
Proof. now apply str_eqb_eq. Qed.

Lemma str_eqb_neq (s t : pystr) : str_eqb s t = false <-> s <> t.
Proof.
  unfold str_eqb. destruct (list_eq_dec ascii_dec s t); split; congruence.
Qed.

Section DictFacts.

Variables K V : Type.
Variable eqb : K -> K -> bool.
Hypothesis eqb_eq : forall a b, eqb a b = true <-> a = b.

Lemma key_eqb_refl (a : K) : eqb a a = true.
Proof. now apply eqb_eq. Qed.

Lemma key_eqb_neq (a b : K) : a <> b -> eqb a b = false.
Proof.
  intros Hne. destruct (eqb a b) eqn:E; [|reflexivity].
  now apply eqb_eq in E.
Qed.

Lemma get_set_same (k : K) (v : V) (d : Dict.dict K V) :
  Dict.get eqb k (Dict.set eqb k v d) = Some v.
Proof.
  induction d as [|[k' v'] d IH]; simpl.
  - now rewrite key_eqb_refl.
  - destruct (eqb k k') eqn:E; simpl; rewrite E; [reflexivity | exact IH].
Qed.


Lemma get_none (k : K) (d : Dict.dict K V) :
  Dict.get eqb k d = None <-> ~ In k (Dict.keys d).
Proof.
  induction d as [|[k' v'] d IH]; simpl.
  - tauto.
  - destruct (eqb k k') eqn:E.
    + apply eqb_eq in E. split; [discriminate | intros H; exfalso; auto].
    + rewrite IH. split.
      * intros H [Heq|Hin]; [|auto]. subst. now rewrite key_eqb_refl in E.
      * tauto.
Qed.

Lemma set_fresh (k : K) (v : V) (d : Dict.dict K V) :
  ~ In k (Dict.keys d) -> Dict.set eqb k v d = d ++ [(k, v)].
Proof.
  induction d as [|[k' v'] d IH]; simpl; intros Hnin; [reflexivity|].
  rewrite key_eqb_neq by (intros ->; auto).
  rewrite IH; [reflexivity | tauto].
Qed.


End DictFacts.

(** ** The ranking normaliser: stored scores *)

Section RankingFacts.









End RankingFacts.

(** ** Bounds on the scores *)

Section ScoreBounds.

Open Scope Q_scope.







End ScoreBounds.

Section RankTheorems.

Variable complete : nat -> pystr -> completion.
Variable json_loads : pystr -> option json.



End RankTheorems.





(** ** The extraction cache *)

Section CacheFacts.

Variable f : pystr -> M extraction.

(** The decorated function reads and extends the trace only. *)
Hypothesis f_keeps_cache : forall url s, cache (snd (f url s)) = cache s.

Lemma lookup_notin (url : pystr) (t : Cache.table) :
  Cache.lookup url t = None <-> ~ In url (Dict.keys t).
Proof. apply (get_none str_eqb str_eqb_eq). Qed.

Lemma lookup_behind (url : pystr) (v : extraction) (pre post : Cache.table) :
  ~ In url (Dict.keys pre) ->
  Cache.lookup url (pre ++ (url, v) :: post) = Some v.
Proof.
  unfold Cache.lookup. induction pre as [|[k w] pre IH]; simpl; intros Hnin.
  - now rewrite str_eqb_refl.
  - destruct (str_eqb url k) eqn:E.
    + apply str_eqb_eq in E. subst. tauto.
    + apply IH. tauto.
Qed.

(** A hit returns the stored value and leaves the trace alone. *)
Lemma lru_cache_hit (url : pystr) (v : extraction) (s : state) :
  Cache.lookup url (cache s) = Some v ->
  Cache.lru_cache f url s
  = (Returned v, State (trace s) (Cache.touch url v (cache s))).
Proof.
  intros Hhit. unfold Cache.lru_cache. now rewrite Hhit.
Qed.

(** A call that returns leaves its result in the table. *)
Lemma lru_cache_stores (url : pystr) (v : extraction) (s s1 : state) :
  Cache.lru_cache f url s = (Returned v, s1) ->
  exists post, cache s1 = (url, v) :: post.
Proof.
  unfold Cache.lru_cache.
  destruct (Cache.lookup url (cache s)) as [w|].
  - intros [= <- <-]. simpl. eexists. reflexivity.
  - destruct (f url s) as [[w|e] s']; intros [= <- <-]; simpl.
    eexists. reflexivity.
Qed.

Lemma kept_length (universe : list pystr) (url : pystr) (pre : Cache.table) :
  ~ In url (Dict.keys pre) ->
  NoDup (Dict.keys pre) ->
  incl (Dict.keys pre) universe ->
  List.length pre <= List.length (Cache.distinct_others url universe).
Proof.
  intros Hnin Hnd Hincl.
  rewrite <- (length_map fst pre). fold (Dict.keys pre).
  apply NoDup_incl_length; [exact Hnd|].
  intros k Hk. unfold Cache.distinct_others.
  apply nodup_In, in_in_remove; [|now apply Hincl].
  intros ->. contradiction.
Qed.

Lemma keys_filter_other (u : pystr) (t : Cache.table) :
  Dict.keys (filter (fun kv => negb (str_eqb u (fst kv))) t)
  = filter (fun k => negb (str_eqb u k)) (Dict.keys t).
Proof.
  induction t as [|[k w] t IH]; simpl; [reflexivity|].
  destruct (str_eqb u k); simpl; now rewrite IH.
Qed.

Lemma kept_after_call (universe : list pystr) (url u : pystr)
      (v : extraction) (s : state) :
  List.length (Cache.distinct_others url universe) < Cache.maxsize ->
  In u universe ->
  Cache.kept universe url v (cache s) ->
  Cache.kept universe url v (cache (snd (Cache.lru_cache f u s))).
Proof.
  intros Hroom Hu (pre & post & Ht & Hnin & Hnd & Hincl).
  unfold Cache.lru_cache.
  destruct (Cache.lookup u (cache s)) as [w|] eqn:Hlook; simpl.
  - (* a hit moves [u] to the front *)
    destruct (list_eq_dec ascii_dec u url) as [->|Hne].
    + exists [], (filter (fun kv => negb (str_eqb url (fst kv))) (cache s)).
      rewrite Ht in Hlook. rewrite lookup_behind in Hlook by exact Hnin.
      injection Hlook as <-.
      repeat split; simpl; try tauto; try constructor. intros k [].
    + exists ((u, w) :: filter (fun kv => negb (str_eqb u (fst kv))) pre),
             (filter (fun kv => negb (str_eqb u (fst kv))) post).
      split; [|split; [|split]].
      * unfold Cache.touch. rewrite Ht, filter_app. simpl.
        apply str_eqb_neq in Hne. now rewrite Hne.
      * simpl. rewrite keys_filter_other, filter_In. intros [Heq|[Hin _]].
        -- now apply Hne.
        -- contradiction.
      * simpl. rewrite keys_filter_other. constructor.
        -- rewrite filter_In, str_eqb_refl. intros [_ Hf]. discriminate.
        -- now apply NoDup_filter.
      * simpl. rewrite keys_filter_other. intros k [<-|Hk]; [exact Hu|].
        apply Hincl. now apply filter_In in Hk.
  - (* a miss calls the function *)
    pose proof (f_keeps_cache u s) as Hcache.
    assert (Hfresh : ~ In u (Dict.keys (cache s))) by now apply lookup_notin.
    destruct (f u s) as [[w|e] s']; simpl in *; rewrite Hcache.
    + exists ((u, w) :: pre),
             (firstn (Cache.maxsize - S (S (List.length pre))) post).
      assert (Hupre : ~ In u (Dict.keys pre)).
      { intros Hin. apply Hfresh. rewrite Ht. unfold Dict.keys.
        rewrite map_app, in_app_iff. now left. }
      assert (Hne : u <> url).
      { intros ->. apply Hfresh. rewrite Ht. unfold Dict.keys.
        rewrite map_app, in_app_iff. right. now left. }
      assert (Hlen : S (List.length pre) < Cache.maxsize).
      { eapply Nat.le_lt_trans; [|exact Hroom].
        apply (@kept_length universe url ((u, w) :: pre)); simpl.
        - intros [Heq|Hin]; [now apply Hne | contradiction].
        - now constructor.
        - intros k [<-|Hk]; [exact Hu | now apply Hincl]. }
      split; [|split; [|split]].
      * unfold Cache.store. rewrite Ht.
        change ((u, w) :: pre ++ (url, v) :: post)
          with (((u, w) :: pre) ++ (url, v) :: post).
        rewrite firstn_app. simpl List.length.
        rewrite firstn_all2 by (simpl; lia).
        replace (Cache.maxsize - S (List.length pre))
          with (S (Cache.maxsize - S (S (List.length pre)))) by lia.
        reflexivity.
      * simpl. intros [Heq|Hin]; [now apply Hne | contradiction].
      * simpl. now constructor.
      * simpl. intros k [<-|Hk]; [exact Hu | now apply Hincl].
    + exists pre, post. now repeat split.
Qed.

Lemma kept_after_calls (universe : list pystr) (url : pystr)
      (v : extraction) (urls : list pystr) (s : state) :
  List.length (Cache.distinct_others url universe) < Cache.maxsize ->
  incl urls universe ->
  Cache.kept universe url v (cache s) ->
  Cache.kept universe url v
       (cache (Cache.after_calls (Cache.lru_cache f) urls s)).
Proof.
  intros Hroom. revert s.
  induction urls as [|u urls IH]; intros s Hincl Hkept; simpl.
  - exact Hkept.
  - apply IH.
    + intros k Hk. apply Hincl. now right.
    + apply kept_after_call; [exact Hroom | apply Hincl; now left | exact Hkept].
Qed.

End CacheFacts.

Section DeepScrapeFacts.

Variable http : nat -> pystr -> http_reply.
Variable get_text : pystr -> pystr.
Variable complete : nat -> pystr -> completion.

(** Computations that leave the table of the cache as it is. *)
Lemma mbind_keeps_cache (A B : Type) (m : M A) (k : A -> M B) :
  (forall s, cache (snd (m s)) = cache s) ->
  (forall a s, cache (snd (k a s)) = cache s) ->
  forall s, cache (snd (mbind m k s)) = cache s.
Proof.
  intros Hm Hk s. unfold mbind. specialize (Hm s).
  destruct (m s) as [[a|e] s']; simpl in *; [|exact Hm].
  now rewrite Hk.
Qed.

Lemma extract_keeps_cache (url : pystr) (s : state) :
  cache (snd (extract_webpage_text http get_text url 3 s)) = cache s.
Proof.
  unfold extract_webpage_text.
  now destruct (attempts_returns http get_text url 3 3 s) as (r & es & ->).
Qed.

Lemma chat_keeps_cache (user_input context : pystr) (s : state) :
  cache (snd (chat_with_openai complete user_input context s)) = cache s.
Proof.
  now destruct (chat_with_openai_returns complete user_input context s)
    as (r & es & ->).
Qed.

Lemma wrapped_keeps_cache (url : pystr) (s : state) :
  cache (snd (deep_scrape_website_wrapped http get_text complete url s))
  = cache s.
Proof.
  unfold deep_scrape_website_wrapped.
  apply mbind_keeps_cache; [apply extract_keeps_cache|].
  intros [[|c text]|] s0; try reflexivity.
  apply mbind_keeps_cache; [apply chat_keeps_cache|].
  intros result s1.
  apply mbind_keeps_cache; [reflexivity|].
  intros formatted s2.
  apply mbind_keeps_cache; [apply chat_keeps_cache|].
  reflexivity.
Qed.

(** When the retriever gives nothing, the function under the decorator
    returns the "no data" pair and does nothing more. *)
Lemma wrapped_no_data (url : pystr) (s s' : state) :
  extract_webpage_text http get_text url 3 s = (Returned None, s') ->
  deep_scrape_website_wrapped http get_text complete url s
  = (Returned no_data, s').
Proof.
  intros Hfetch. unfold deep_scrape_website_wrapped, mbind.
  now rewrite Hfetch.
Qed.

End DeepScrapeFacts.

(** C5.  Once [deep_scrape_website] has returned a pair for a URL, a
    later call with the same URL string returns the same pair and adds
    nothing to the trace (no request to the completion service, no GET),
    as long as fewer than 128 distinct other URLs were asked for in
    between; in particular when the second call follows the first. *)
Theorem deep_scrape_repeat_is_cache_hit
        (http : nat -> pystr -> http_reply) (get_text : pystr -> pystr)
        (complete : nat -> pystr -> completion)
        (url : pystr) (between : list pystr)
        (r : extraction) (s s1 : state) :
  deep_scrape_website http get_text complete url s = (Returned r, s1) ->
  List.length (Cache.distinct_others url between) < Cache.maxsize ->
  let s2 :=
    Cache.after_calls (deep_scrape_website http get_text complete)
                      between s1 in
  exists s3,
    deep_scrape_website http get_text complete url s2 = (Returned r, s3)
    /\ trace s3 = trace s2
    /\ completions s3 = completions s2
    /\ gets s3 = gets s2.
Proof.
  intros Hfirst Hroom s2.
  destruct (lru_cache_stores _ _ _ Hfirst) as (post & Hcache).
  assert (Hkept : Cache.kept between url r (cache s2)).
  { apply kept_after_calls.
    - apply wrapped_keeps_cache.
    - exact Hroom.
    - apply incl_refl.
    - exists [], post. rewrite Hcache. repeat split; simpl; try tauto.
      + constructor.
      + intros k []. }
  destruct Hkept as (pre & post' & Ht & Hnin & _).
  assert (Hhit : Cache.lookup url (cache s2) = Some r).
  { rewrite Ht. now apply lookup_behind. }
  unfold deep_scrape_website.
  rewrite (lru_cache_hit _ _ _ Hhit).
  eexists. split; [reflexivity|]. now repeat split.
Qed.

(** C5, at a page that answers 200, asked for again after another URL:
    the four requests to the completion service are those of the two
    first extractions. *)
Lemma deep_scrape_repeat_is_cache_hit_witness :
  let http := fun (_ : nat) (_ : pystr) => Response 200 (lit "Acme Ltd") in
  let complete := fun (_ : nat) (_ : pystr) => Choice (lit "Email: a@b.c") in
  let url := lit "http://acme.example" in
  let first := deep_scrape_website http (fun t => t) complete url
                                   (State [] []) in
  let s2 :=
    Cache.after_calls (deep_scrape_website http (fun t => t) complete)
                      [lit "http://bolt.example"] (snd first) in
  exists s3,
    deep_scrape_website http (fun t => t) complete url s2 = (fst first, s3)
    /\ completions s2 = 4
    /\ completions s3 = 4.
Proof.
  intros http complete url first s2.
  epose proof (@deep_scrape_repeat_is_cache_hit http (fun t => t) complete
                 url [lit "http://bolt.example"] _ (State [] []) _ eq_refl)
    as Hhit.
  destruct Hhit as (s3 & Hcall & _ & Hcompletions & _).
  - vm_compute. lia.
  - exists s3. split; [exact Hcall|]. split; [reflexivity|].
    rewrite Hcompletions. reflexivity.
Defined.

(** C9, as stated, fails: at a server that answers 404 the fetch returns
    nothing, yet the call leaves an entry for the URL in the table of the
    cache, and the next call for that URL returns the stored "no data"
    pair without a single GET. *)
Lemma failed_fetch_is_cached_counterexample :
  let http := fun (_ : nat) (_ : pystr) => Response 404 [] in
  let complete := fun (_ : nat) (_ : pystr) => Choice [] in
  let url := lit "http://gone.example" in
  let s0 := State [] [] in
  let s1 := snd (deep_scrape_website http (fun t => t) complete url s0) in
  let second := deep_scrape_website http (fun t => t) complete url s1 in
  fst (extract_webpage_text http (fun t => t) url 3 s0) = Returned None
  /\ Cache.lookup url (cache s1) = Some no_data
  /\ fst second = Returned no_data
  /\ gets s1 = 1
  /\ gets (snd second) = 1.
Proof.
  vm_compute. repeat split; reflexivity.
Qed.

(** C9, amended.  The cache holds the result of every call that returned,
    whether the extraction succeeded or not: when the fetch gives nothing
    for a URL that the cache does not hold, the call returns the "no
    data" pair and stores it under the URL, and the next call for the
    same URL returns that pair again without any GET. *)
Theorem failed_fetch_is_cached_and_replayed
        (http : nat -> pystr -> http_reply) (get_text : pystr -> pystr)
        (complete : nat -> pystr -> completion)
        (url : pystr) (s s' : state) :
  Cache.lookup url (cache s) = None ->
  extract_webpage_text http get_text url 3 s = (Returned None, s') ->
  exists s1 s2,
    deep_scrape_website http get_text complete url s = (Returned no_data, s1)
    /\ trace s1 = trace s'
    /\ Cache.lookup url (cache s1) = Some no_data
    /\ deep_scrape_website http get_text complete url s1
       = (Returned no_data, s2)
    /\ trace s2 = trace s1
    /\ gets s2 = gets s1.
Proof.
  intros Hmiss Hfetch.
  pose proof (@wrapped_no_data http get_text complete url s s' Hfetch)
    as Hwrapped.
  assert (Hfirst :
    deep_scrape_website http get_text complete url s
    = (Returned no_data,
       State (trace s') (Cache.store url no_data (cache s')))).
  { unfold deep_scrape_website, Cache.lru_cache.
    now rewrite Hmiss, Hwrapped. }
  assert (Hstored :
    Cache.lookup url (Cache.store url no_data (cache s')) = Some no_data).
  { unfold Cache.store, Cache.lookup. simpl. now rewrite str_eqb_refl. }
  eexists. eexists. split; [exact Hfirst|].
  split; [reflexivity|]. split; [exact Hstored|].
  unfold deep_scrape_website at 1.
  rewrite (@lru_cache_hit
             (deep_scrape_website_wrapped http get_text complete) url no_data
             (State (trace s') (Cache.store url no_data (cache s')))
             Hstored).
  now repeat split.
Qed.

(** C9 amended, at a server that answers 404. *)
Lemma failed_fetch_is_cached_and_replayed_witness :
  let http := fun (_ : nat) (_ : pystr) => Response 404 [] in
  let complete := fun (_ : nat) (_ : pystr) => Choice [] in
  let url := lit "http://gone.example" in
  exists s1 s2,
    deep_scrape_website http (fun t => t) complete url (State [] [])
    = (Returned no_data, s1)
    /\ deep_scrape_website http (fun t => t) complete url s1
       = (Returned no_data, s2)
    /\ gets s2 = gets s1.
Proof.
  intros http complete url.
  epose proof (@failed_fetch_is_cached_and_replayed http (fun t => t)
                 complete url (State [] []) _ eq_refl eq_refl) as Hreplay.
  destruct Hreplay as (s1 & s2 & Hfirst & _ & _ & Hsecond & _ & Hgets).
  exists s1, s2. now repeat split.
Defined.

(** ** Strings *)

Section StringFacts.

Lemma startswith_iff (p s : pystr) :
  startswith p s = true <-> exists r, s = p ++ r.
Proof.
  revert s. induction p as [|a p IH]; intros s; simpl.
  - split; [intros _; now exists s | reflexivity].
  - destruct s as [|b s].
    + split; [discriminate | intros (r & Hr); discriminate].
    + rewrite andb_true_iff, Ascii.eqb_eq, IH. split.
      * intros (-> & r & ->). now exists r.
      * intros (r & [= -> ->]). split; [reflexivity | now exists r].
Qed.

(** [sub in s] holds exactly when [s] reads [a ++ sub ++ b]. *)
Lemma contains_iff (sub s : pystr) :
  contains sub s = true <-> exists a b, s = a ++ sub ++ b.
Proof.
  induction s as [|c s IH]; simpl.
  - rewrite orb_false_r, startswith_iff. split.
    + intros (r & Hr). now exists [], r.
    + intros (a & b & Hab). destruct a; [now exists b | discriminate].
  - rewrite orb_true_iff, startswith_iff, IH. split.
    + intros [(r & Hr) | (a & b & Hab)].
      * now exists [], r.
      * exists (c :: a), b. now rewrite Hab.
    + intros (a & b & Hab). destruct a as [|c' a].
      * left. now exists b.
      * right. injection Hab as -> ->. now exists a, b.
Qed.

Lemma contains_self_between (a sub b : pystr) :
  contains sub (a ++ sub ++ b) = true.
Proof. apply contains_iff. now exists a, b. Qed.

(** What a part of a string contains, the string contains. *)
Lemma contains_infix (sub a m b : pystr) :
  contains sub m = true -> contains sub (a ++ m ++ b) = true.
Proof.
  rewrite !contains_iff. intros (x & y & ->).
  exists (a ++ x), (y ++ b). now rewrite <- !app_assoc.
Qed.

(** An occurrence cannot start at a character other than its first. *)
Lemma contains_skip (c d : ascii) (k s : pystr) :
  c <> d -> contains (c :: k) (d :: s) = contains (c :: k) s.
Proof.
  intros Hne. cbn [contains startswith].
  apply Ascii.eqb_neq in Hne. now rewrite Hne.
Qed.

Lemma startswith_before (sep : ascii) (k a b : pystr) :
  has_char sep k = false ->
  startswith k (a ++ sep :: b) = startswith k a.
Proof.
  revert a. induction k as [|c k IH]; intros a Hk; [reflexivity|].
  simpl in Hk. apply orb_false_iff in Hk as [Hc Hk].
  destruct a as [|d a]; simpl.
  - rewrite Ascii.eqb_sym, Hc. reflexivity.
  - now rewrite IH.
Qed.

(** An occurrence cannot straddle a character that it does not hold. *)
Lemma contains_around (sep : ascii) (k a b : pystr) :
  has_char sep k = false ->
  contains k (a ++ sep :: b) = contains k a || contains k b.
Proof.
  intros Hk. induction a as [|d a IH].
  - pose proof (startswith_before sep k [] b Hk) as Hstart.
    cbn [app contains] in *. now rewrite Hstart, orb_false_r.
  - pose proof (startswith_before sep k (d :: a) b Hk) as Hstart.
    cbn [app contains] in *. now rewrite Hstart, IH, orb_assoc.
Qed.

Lemma lower_app (a b : pystr) : lower (a ++ b) = lower a ++ lower b.
Proof. apply map_app. Qed.





End StringFacts.

(** *** [strip] *)

Section StripFacts.

Lemma lstrip_suffix (s : pystr) :
  exists ws, s = ws ++ lstrip s /\ forallb isspace ws = true.
Proof.
  induction s as [|c s (ws & Hs & Hws)]; simpl.
  - now exists [].
  - destruct (isspace c) eqn:E.
    + exists (c :: ws). simpl. rewrite E, Hws. split; [now f_equal | reflexivity].
    + now exists [].
Qed.




Lemma forallb_rev (A : Type) (p : A -> bool) (l : list A) :
  forallb p (rev l) = forallb p l.
Proof.
  induction l as [|a l IH]; simpl; [reflexivity|].
  rewrite forallb_app, IH. simpl. rewrite andb_true_r. apply andb_comm.
Qed.

Lemma rstrip_prefix (s : pystr) :
  exists ws, s = rstrip s ++ ws /\ forallb isspace ws = true.
Proof.
  unfold rstrip. destruct (lstrip_suffix (rev s)) as (ws & Hs & Hws).
  exists (rev ws). split.
  - rewrite <- rev_app_distr, <- Hs. now rewrite rev_involutive.
  - now rewrite forallb_rev.
Qed.


(** What [strip] returns is a part of its argument, between blanks. *)
Lemma strip_infix (s : pystr) :
  exists a b,
    s = a ++ strip s ++ b
    /\ forallb isspace a = true /\ forallb isspace b = true.
Proof.
  destruct (lstrip_suffix s) as (a & Hs & Ha).
  destruct (rstrip_prefix (lstrip s)) as (b & Ht & Hb).
  exists a, b. unfold strip. rewrite <- Ht. now repeat split.
Qed.





End StripFacts.

(** *** [split] and [join] *)

Section SplitFacts.

Variable sep : ascii.

Lemma split_not_nil (s : pystr) : split sep s <> [].
Proof.
  destruct s as [|c s]; simpl; [discriminate|].
  destruct (Ascii.eqb c sep); [discriminate|].
  destruct (split sep s); discriminate.
Qed.


Lemma split_plain (p : pystr) :
  has_char sep p = false -> split sep p = [p].
Proof.
  induction p as [|c p IH]; simpl; [reflexivity|].
  rewrite orb_false_iff. intros [Hc Hp].
  rewrite Ascii.eqb_sym, Hc, IH; [reflexivity | exact Hp].
Qed.

Lemma split_app_sep (p rest : pystr) :
  has_char sep p = false ->
  split sep (p ++ sep :: rest) = p :: split sep rest.
Proof.
  induction p as [|c p IH]; simpl.
  - now rewrite Ascii.eqb_refl.
  - rewrite orb_false_iff. intros [Hc Hp].
    rewrite Ascii.eqb_sym, Hc, IH; [reflexivity | exact Hp].
Qed.

(** Splitting what [join] put together gives the parts back. *)
Lemma split_join (parts : list pystr) :
  parts <> [] ->
  Forall (fun l => has_char sep l = false) parts ->
  split sep (join [sep] parts) = parts.
Proof.
  induction parts as [|p parts IH]; intros Hne Hall; [now elim Hne|].
  inversion Hall as [|? ? Hp Hrest]; subst.
  destruct parts as [|q parts].
  - simpl. now apply split_plain.
  - change (join [sep] (p :: q :: parts))
      with (p ++ sep :: join [sep] (q :: parts)).
    rewrite split_app_sep by exact Hp.
    rewrite IH; [reflexivity | discriminate | exact Hrest].
Qed.

End SplitFacts.

(** *** Keywords in a stripped line *)

Section KeywordFacts.

Lemma contains_rev (k s : pystr) :
  contains (rev k) (rev s) = contains k s.
Proof.
  apply eq_true_iff_eq. rewrite !contains_iff. split.
  - intros (a & b & Hs). exists (rev b), (rev a).
    apply (f_equal (@rev ascii)) in Hs.
    rewrite rev_involutive, !rev_app_distr, rev_involutive in Hs.
    now rewrite Hs, app_assoc.
  - intros (a & b & ->). exists (rev b), (rev a).
    now rewrite !rev_app_distr, app_assoc.
Qed.

Lemma contains_after_blanks (c : ascii) (k ws s : pystr) :
  isspace c = false ->
  forallb isspace ws = true ->
  contains (c :: k) (ws ++ s) = contains (c :: k) s.
Proof.
  intros Hc. induction ws as [|w ws IH]; simpl app; [reflexivity|].
  cbn [forallb]. rewrite andb_true_iff. intros [Hw Hws].
  rewrite contains_skip by congruence. now apply IH.
Qed.

Lemma contains_before_blanks (c : ascii) (k ws s : pystr) :
  isspace c = false ->
  forallb isspace ws = true ->
  contains (k ++ [c]) (s ++ ws) = contains (k ++ [c]) s.
Proof.
  intros Hc Hws.
  rewrite <- (contains_rev (k ++ [c]) (s ++ ws)), !rev_app_distr.
  cbn [rev app].
  rewrite contains_after_blanks by (now rewrite ?forallb_rev).
  rewrite <- (contains_rev (k ++ [c]) s), rev_app_distr. reflexivity.
Qed.

(** Blanks have no capital form. *)
Lemma lower_blanks (ws : pystr) :
  forallb isspace ws = true -> lower ws = ws.
Proof.
  induction ws as [|w ws IH]; simpl; [reflexivity|].
  rewrite andb_true_iff. intros [Hw Hws]. rewrite IH by exact Hws.
  f_equal. revert Hw.
  destruct w as [[] [] [] [] [] [] [] []]; vm_compute; congruence.
Qed.

(** A keyword that starts and ends with characters other than blanks
    occurs in a line exactly when it occurs in the stripped line. *)
Lemma contains_lower_strip (c d : ascii) (k s : pystr) :
  isspace c = false -> isspace d = false ->
  contains (c :: k ++ [d]) (lower (strip s))
  = contains (c :: k ++ [d]) (lower s).
Proof.
  intros Hc Hd.
  destruct (strip_infix s) as (a & b & Hs & Ha & Hb).
  rewrite Hs at 2. rewrite !lower_app.
  rewrite (lower_blanks a Ha), (lower_blanks b Hb).
  rewrite contains_after_blanks by assumption.
  change (c :: k ++ [d]) with ((c :: k) ++ [d]).
  now rewrite contains_before_blanks.
Qed.

(** What occurs in the stripped line occurs in the line. *)
Lemma contains_lower_strip_inv (k s : pystr) :
  contains k (lower (strip s)) = true -> contains k (lower s) = true.
Proof.
  destruct (strip_infix s) as (a & b & Hs & _).
  intros H. rewrite Hs, !lower_app. now apply contains_infix.
Qed.

End KeywordFacts.

(** ** The formatter: default lines *)

Section PadFacts.

Lemma present_app (d : pystr) (a b : list pystr) :
  present d (a ++ b) = present d a || present d b.
Proof. apply existsb_app. Qed.

Lemma pad_one_eq (out : list pystr) (d : pystr) :
  pad_one out d = if present d out then out else out ++ [default_line d].
Proof. unfold pad_one. now destruct (present d out). Qed.

Lemma pad_fold (names : list pystr) (body extras : list pystr) :
  independent names = true ->
  forallb (fun d => negb (present d extras)) names = true ->
  fold_left pad_one names (body ++ extras)
  = body ++ extras
    ++ map default_line (filter (fun d => negb (present d body)) names).
Proof.
  revert extras. induction names as [|d rest IH]; intros extras Hind Hext.
  - simpl. now rewrite app_nil_r.
  - cbn [independent forallb] in Hind, Hext.
    apply andb_true_iff in Hind as [Hd Hind].
    apply andb_true_iff in Hext as [Hde Hext].
    apply negb_true_iff in Hde.
    cbn [fold_left filter].
    rewrite pad_one_eq, present_app, Hde, orb_false_r.
    destruct (present d body) eqn:Hbody; cbn [negb map].
    + now apply IH.
    + rewrite <- app_assoc, IH; [now rewrite <- app_assoc | exact Hind |].
      rewrite forallb_forall in *. intros d' Hd'.
      rewrite present_app, negb_orb, (Hext d' Hd').
      unfold present. cbn [existsb]. rewrite orb_false_r.
      exact (Hd d' Hd').
Qed.

(** The defaults loop appends one default line for each display name that
    no line of the list holds, and nothing else. *)
Lemma pad_defaults_eq (body : list pystr) :
  pad_defaults body = body ++ defaults_for body.
Proof.
  unfold pad_defaults, defaults_for.
  rewrite <- (app_nil_r body) at 1.
  now rewrite pad_fold.
Qed.

Lemma contains_own_default (d : pystr) : contains d (default_line d) = true.
Proof.
  unfold default_line, section_line. apply contains_self_between.
Qed.

Lemma present_after_pad (body : list pystr) (d : pystr) :
  In d display_names -> present d (body ++ defaults_for body) = true.
Proof.
  intros Hd. rewrite present_app.
  destruct (present d body) eqn:Hbody; [reflexivity|]. simpl.
  apply existsb_exists. exists (default_line d). split.
  - unfold defaults_for. apply in_map, filter_In. now rewrite Hbody.
  - apply contains_own_default.
Qed.

Lemma count_occ_map_filter (f : pystr -> pystr) (p : pystr -> bool)
      (l : list pystr) (d : pystr) :
  NoDup l ->
  (forall x, In x l -> f x = f d -> x = d) ->
  In d l ->
  count_occ (list_eq_dec ascii_dec) (map f (filter p l)) (f d)
  = if p d then 1 else 0.
Proof.
  intros Hnd Hinj Hd. induction l as [|x l IH]; [destruct Hd|].
  inversion Hnd as [|? ? Hx Hnd']; subst.
  assert (Hrest : ~ In d l ->
                  count_occ (list_eq_dec ascii_dec) (map f (filter p l)) (f d)
                  = 0).
  { intros Hnin. apply count_occ_not_In. rewrite in_map_iff.
    intros (y & Hy & Hin). apply filter_In in Hin as [Hin _].
    apply Hnin. rewrite <- (Hinj y); [exact Hin | now right | exact Hy]. }
  destruct Hd as [->|Hd].
  - simpl. destruct (p d); simpl.
    + destruct (list_eq_dec ascii_dec (f d) (f d)); [|congruence].
      now rewrite Hrest.
    + now apply Hrest.
  - assert (Hne : f x <> f d).
    { intros Heq. apply Hx. rewrite (Hinj x); [exact Hd | now left | exact Heq]. }
    simpl. destruct (p x); simpl.
    + destruct (list_eq_dec ascii_dec (f x) (f d)); [contradiction|].
      apply IH; [exact Hnd' | | exact Hd].
      intros y Hy. apply Hinj. now right.
    + apply IH; [exact Hnd' | | exact Hd].
      intros y Hy. apply Hinj. now right.
Qed.

Lemma display_names_NoDup : NoDup display_names.
Proof.
  unfold display_names, sections, Dict.values; simpl.
  repeat (constructor; [simpl; intuition discriminate|]). constructor.
Qed.

Lemma default_line_inj (x d : pystr) :
  In x display_names -> In d display_names ->
  default_line x = default_line d -> x = d.
Proof.
  unfold display_names, sections, Dict.values; simpl.
  intros Hx Hd.
  repeat (destruct Hx as [<-|Hx]; [|]); try contradiction;
    repeat (destruct Hd as [<-|Hd]; [|]); try contradiction;
    first [reflexivity | (intros H; vm_compute in H; discriminate H)].
Qed.

(** Each display name has one default line among the appended ones when
    no line of the list holds it, and none otherwise. *)
Lemma defaults_for_count (body : list pystr) (d : pystr) :
  In d display_names ->
  count_occ (list_eq_dec ascii_dec) (defaults_for body) (default_line d)
  = if present d body then 0 else 1.
Proof.
  intros Hd. unfold defaults_for.
  rewrite count_occ_map_filter.
  - now destruct (present d body).
  - apply display_names_NoDup.
  - intros x Hx. now apply default_line_inj.
  - exact Hd.
Qed.

End PadFacts.

(** ** The formatter: the scanning loop never fails *)

Section ScanFacts.

Lemma match_section_in (line key display_name : pystr) :
  match_section line = Some (key, display_name) ->
  In (key, display_name) sections
  /\ contains (lower key) (lower line) = true.
Proof.
  unfold match_section. intros H. now apply find_some in H.
Qed.

(** Only the section "Supplier Details" has a display name that holds
    "Supplier Details". *)
Lemma supplier_details_name (key display_name : pystr) :
  In (key, display_name) sections ->
  contains (lit "Supplier Details") display_name
  = str_eqb display_name (lit "Supplier Details").
Proof.
  unfold sections; simpl. intros H.
  repeat (destruct H as [[= <- <-]|H]; [reflexivity|]). destruct H.
Qed.

Lemma append_to_last_returns (s : pystr) (out : list pystr) :
  out <> [] ->
  exists out', append_to_last s out = Returned out' /\ out' <> [].
Proof.
  intros Hne. destruct out as [|l out]; [now elim Hne|].
  eexists. split; [reflexivity|].
  intros H. now apply app_eq_nil in H as [_ H].
Qed.

Lemma nat_eqb_eq (a b : nat) : Nat.eqb a b = true <-> a = b.
Proof. apply Nat.eqb_eq. Qed.

(** One turn of the loop keeps [good] and returns. *)
Lemma scan_line_good (multi : bool) (st : locals) (raw : pystr) :
  good multi st ->
  exists st', scan_line multi st raw = Returned st' /\ good multi st'.
Proof.
  intros Hgood. pose proof Hgood as [Hout Hcur]. unfold scan_line.
  destruct (negb (nonempty (strip raw))); [now exists st|].
  destruct (match_section (strip raw)) as [[key display_name]|] eqn:Hm.
  - apply match_section_in in Hm as [Hin _].
    rewrite (supplier_details_name Hin).
    destruct (str_eqb display_name (lit "Supplier Details") && multi) eqn:E.
    + eexists. split; [reflexivity|]. apply andb_true_iff in E as [_ ->].
      split; cbn [formatted_output current_section supplier_index supplier_data].
      * exact Hout.
      * intros cur [= <-]. split; [|discriminate].
        intros _. now rewrite (get_set_same Nat.eqb nat_eqb_eq).
    + eexists. split; [reflexivity|].
      split; cbn [formatted_output current_section supplier_index supplier_data].
      * intros _ H. now apply app_eq_nil in H as [_ H].
      * intros cur [= <-]. split.
        -- rewrite andb_comm, E. discriminate.
        -- intros _ H. now apply app_eq_nil in H as [_ H].
  - destruct (current_section st) as [cur|] eqn:Hc; [|now exists st].
    destruct (nonempty cur && nonempty (strip raw)); [|now exists st].
    destruct (Hcur cur eq_refl) as [Hblock Hflat].
    destruct (multi && str_eqb cur (lit "Supplier Details")) eqn:E.
    + unfold append_to_block.
      destruct (Dict.get Nat.eqb (supplier_index st) (supplier_data st))
        as [block|] eqn:Hget; [|now elim (Hblock eq_refl)].
      eexists. split; [reflexivity|].
      split; cbn [formatted_output current_section supplier_index supplier_data].
      * exact Hout.
      * intros cur' [= <-].
        split; [|exact Hflat].
        intros _. now rewrite (get_set_same Nat.eqb nat_eqb_eq).
    + assert (Hne : formatted_output st <> []).
      { destruct multi; [now apply Hout | now apply Hflat]. }
      destruct (append_to_last_returns (lit " " ++ strip raw) Hne)
        as (out' & -> & Hout').
      eexists. split; [reflexivity|].
      split; cbn [formatted_output current_section supplier_index supplier_data].
      * intros _. exact Hout'.
      * intros cur' [= <-].
        split; [|intros _; exact Hout'].
        rewrite E. discriminate.
Qed.

Lemma scan_good (multi : bool) (lines : list pystr) (st : locals) :
  good multi st ->
  exists st', scan multi st lines = Returned st' /\ good multi st'.
Proof.
  revert st. induction lines as [|raw lines IH]; intros st Hgood.
  - now exists st.
  - destruct (scan_line_good raw Hgood) as (st1 & Hstep & Hgood1).
    destruct (IH st1 Hgood1) as (st' & Hscan & Hgood').
    exists st'. split; [|exact Hgood'].
    cbn [scan]. rewrite Hstep. exact Hscan.
Qed.

(** The scan of a text returns: no [IndexError], no [KeyError]. *)
Lemma scanned_lines_returns (result : pystr) :
  exists body, scanned_lines result = Returned body.
Proof.
  unfold scanned_lines.
  set (multi := 1 <? List.length (supplier_lines (split newline result))).
  destruct (@scan_good multi (split newline result)
              (Locals (if multi then [marker] else []) None 0 []))
    as (st & Hscan & _).
  - split; cbn [formatted_output current_section].
    + intros ->. discriminate.
    + discriminate.
  - rewrite Hscan. eexists. reflexivity.
Qed.

End ScanFacts.

(** The output of the formatter from the scanned lines. *)
Lemma format_of_scanned (result : pystr) (body : list pystr) :
  contains (lit "Error") result = false ->
  scanned_lines result = Returned body ->
  format_deep_scrape_output result
  = Returned (join [newline] (body ++ defaults_for body)).
Proof.
  intros Hno Hbody. unfold format_deep_scrape_output, format_lines.
  rewrite Hno, Hbody. cbn [bind]. rewrite pad_defaults_eq.
  destruct (body ++ defaults_for body) as [|l ls] eqn:E; [|reflexivity].
  exfalso.
  pose proof (@present_after_pad body (lit "Location")) as Hp.
  rewrite E in Hp. discriminate Hp.
  unfold display_names, sections, Dict.values; simpl. tauto.
Qed.

(** C4, as stated, fails, in three ways: a text that contains "Error"
    comes back without any section entry; a header that the text repeats
    has as many entries; and a section whose display name occurs in the
    content of another one gets no entry. *)
Lemma exactly_one_entry_counterexample :
  (let text := lit "Error: blocked" in
   format_deep_scrape_output text = Returned text
   /\ forall d, In d display_names -> section_entries d text = [])
  /\
  (exists out,
      format_deep_scrape_output
        (lit "Email: a@b.c" ++ [newline] ++ lit "Email: d@e.f")
      = Returned out
      /\ List.length (section_entries (lit "Emails") out) = 2)
  /\
  (exists out,
      format_deep_scrape_output (lit "Email: ask at our Location")
      = Returned out
      /\ section_entries (lit "Location") out = []).
Proof.
  split; [|split].
  - split; [reflexivity|].
    unfold display_names, sections, Dict.values; simpl.
    intros d Hd.
    repeat (destruct Hd as [<-|Hd]; [reflexivity|]). destruct Hd.
  - eexists. split; [vm_compute; reflexivity | reflexivity].
  - eexists. split; [vm_compute; reflexivity | reflexivity].
Qed.

(** C4, amended.  For a text without "Error" the scan returns a list of
    lines, and the output is that list followed by one default line, with
    the canned message of its section, for each of the seven display names
    that no line of the list holds, in the order of the sections; so each
    display name occurs in at least one line of the output. *)
Theorem format_pads_missing_sections (result : pystr) :
  contains (lit "Error") result = false ->
  exists body,
    scanned_lines result = Returned body
    /\ format_deep_scrape_output result
       = Returned (join [newline] (body ++ defaults_for body))
    /\ (forall d, In d display_names ->
                  count_occ (list_eq_dec ascii_dec) (defaults_for body)
                            (default_line d)
                  = if present d body then 0 else 1)
    /\ (forall d, In d display_names ->
                  present d (body ++ defaults_for body) = true).
Proof.
  intros Hno.
  destruct (scanned_lines_returns result) as (body & Hbody).
  exists body. split; [exact Hbody|]. split; [|split].
  - now apply format_of_scanned.
  - intros d Hd. now apply defaults_for_count.
  - intros d Hd. now apply present_after_pad.
Qed.

(** C4 amended, at a reply that gives an e-mail address only. *)
Lemma format_pads_missing_sections_witness :
  exists body,
    scanned_lines (lit "Email: a@b.c") = Returned body
    /\ body = [lit "**Emails**: a@b.c"]
    /\ format_deep_scrape_output (lit "Email: a@b.c")
       = Returned (join [newline] (body ++ defaults_for body))
    /\ List.length (defaults_for body) = 6.
Proof.
  destruct (@format_pads_missing_sections (lit "Email: a@b.c") eq_refl)
    as (body & Hbody & Hout & _).
  exists body. split; [exact Hbody|].
  assert (Heq : body = [lit "**Emails**: a@b.c"]).
  { vm_compute in Hbody. now injection Hbody as <-. }
  split; [exact Heq|]. split; [exact Hout|].
  rewrite Heq. reflexivity.
Defined.

(** ** The formatter: the multiple-suppliers mode *)

Section MultiFacts.

(** The loop over [sections], keyword by keyword. *)
Lemma match_section_unfold (line : pystr) :
  match_section line
  = if contains (lit "phone number") (lower line)
    then Some (lit "Phone Number", lit "Phone Numbers")
    else if contains (lit "email") (lower line)
    then Some (lit "Email", lit "Emails")
    else if contains (lit "supplier details") (lower line)
    then Some (lit "Supplier Details", lit "Supplier Details")
    else if contains (lit "location") (lower line)
    then Some (lit "Location", lit "Location")
    else if contains (lit "product pricing") (lower line)
    then Some (lit "Product Pricing", lit "Product Pricing")
    else if contains (lit "iso certifications") (lower line)
    then Some (lit "ISO Certifications", lit "ISO Certifications")
    else if contains (lit "manufacturing process summary") (lower line)
    then Some (lit "Manufacturing Process Summary",
               lit "Manufacturing Process Summary")
    else None.
Proof. reflexivity. Qed.

(** The count of line 139 and the match of line 154 agree on whether a
    line mentions "supplier details", though one looks at the line and
    the other at the stripped line. *)
Lemma mentions_stripped (raw : pystr) :
  contains (lit "supplier details") (lower (strip raw))
  = mentions_supplier_details raw.
Proof.
  unfold mentions_supplier_details.
  change (lit "supplier details")
    with ("s"%char :: lit "upplier detail" ++ ["s"%char]).
  now apply contains_lower_strip.
Qed.

Lemma clean_header_stripped (raw : pystr) :
  clean_header raw ->
  contains (lit "phone number") (lower (strip raw)) = false
  /\ contains (lit "email") (lower (strip raw)) = false.
Proof.
  intros [Hphone Hemail]. split.
  - destruct (contains (lit "phone number") (lower (strip raw))) eqn:E;
      [|reflexivity].
    apply contains_lower_strip_inv in E. congruence.
  - destruct (contains (lit "email") (lower (strip raw))) eqn:E;
      [|reflexivity].
    apply contains_lower_strip_inv in E. congruence.
Qed.

(** A clean line that mentions "supplier details" is matched as a
    "Supplier Details" header. *)
Lemma match_section_supplier (raw : pystr) :
  mentions_supplier_details raw = true ->
  clean_header raw ->
  match_section (strip raw)
  = Some (lit "Supplier Details", lit "Supplier Details").
Proof.
  intros Hm Hclean.
  destruct (clean_header_stripped Hclean) as [Hphone Hemail].
  rewrite match_section_unfold, Hphone, Hemail, mentions_stripped, Hm.
  reflexivity.
Qed.

(** A line that does not mention "supplier details" is matched, if at
    all, as the header of another section. *)
Lemma match_section_other (raw key d : pystr) :
  mentions_supplier_details raw = false ->
  match_section (strip raw) = Some (key, d) ->
  In d display_names
  /\ d <> lit "Supplier Details"
  /\ contains (lit "Supplier Details") d = false.
Proof.
  intros Hm. rewrite match_section_unfold, mentions_stripped, Hm.
  unfold display_names, sections, Dict.values; simpl.
  repeat match goal with
         | |- context [if ?b then _ else _] => destruct b
         end;
    intros [= <- <-]; (split; [tauto | split; [discriminate | reflexivity]]).
Qed.

Lemma blank_not_mentioned (raw : pystr) :
  nonempty (strip raw) = false -> mentions_supplier_details raw = false.
Proof.
  intros Hblank. rewrite <- mentions_stripped.
  destruct (strip raw); [reflexivity | discriminate].
Qed.

Lemma keys_set_present (idx : nat) (v block : list pystr)
      (d : Dict.dict nat (list pystr)) :
  Dict.get Nat.eqb idx d = Some block ->
  Dict.keys (Dict.set Nat.eqb idx v d) = Dict.keys d.
Proof.
  induction d as [|[k w] d IH]; simpl; [discriminate|].
  destruct (Nat.eqb idx k) eqn:E; simpl; [reflexivity|].
  intros H. now rewrite IH.
Qed.

Lemma Forall2_set (P : pystr -> nat -> list pystr -> Prop)
      (headers : list pystr) (d : Dict.dict nat (list pystr))
      (idx : nat) (block v : list pystr) :
  Forall2 (fun h kv => P h (fst kv) (snd kv)) headers d ->
  Dict.get Nat.eqb idx d = Some block ->
  (forall h, P h idx block -> P h idx v) ->
  Forall2 (fun h kv => P h (fst kv) (snd kv)) headers
          (Dict.set Nat.eqb idx v d).
Proof.
  intros Hall. induction Hall as [|h [k w] headers d Hhead Hall IH];
    simpl; [discriminate|].
  intros Hget Hupd. destruct (Nat.eqb idx k) eqn:E.
  - apply Nat.eqb_eq in E. subst k. injection Hget as ->.
    constructor; [|exact Hall]. simpl in *. now apply Hupd.
  - constructor; [exact Hhead|]. now apply IH.
Qed.

End MultiFacts.

Section MultiScan.

Lemma flat_entry_extend (line s : pystr) :
  flat_entry line -> flat_entry (line ++ s).
Proof.
  intros (d & Hd & Hne & Hstart). exists d. repeat split; try assumption.
  apply startswith_iff in Hstart as (r & ->).
  apply startswith_iff. exists (r ++ s). now rewrite <- app_assoc.
Qed.

Lemma flat_entry_section_line (d content : pystr) :
  In d display_names -> d <> lit "Supplier Details" ->
  flat_entry (section_line d content).
Proof.
  intros Hd Hne. exists d. repeat split; try assumption.
  apply startswith_iff. exists content.
  unfold section_line. now rewrite <- !app_assoc.
Qed.

Lemma append_to_last_flat (s : pystr) (flat : list pystr) :
  flat <> [] -> Forall flat_entry flat ->
  exists flat',
    append_to_last s (marker :: flat) = Returned (marker :: flat')
    /\ Forall flat_entry flat' /\ flat' <> [].
Proof.
  intros Hne Hall.
  exists (removelast flat ++ [last flat [] ++ s]).
  split; [|split].
  - destruct flat as [|x xs]; [now elim Hne | reflexivity].
  - rewrite (app_removelast_last [] Hne) in Hall.
    apply Forall_app in Hall as [Hinit Hlast].
    apply Forall_app. split; [exact Hinit|].
    inversion Hlast; subst. constructor; [|constructor].
    now apply flat_entry_extend.
  - intros H. now apply app_eq_nil in H as [_ H].
Qed.

(** One turn of the loop in the multiple-suppliers mode: a clean line
    that mentions "supplier details" opens the next block, any other line
    leaves the number of blocks as it is. *)
Lemma scan_line_scanning (seen : list pystr) (st : locals) (raw : pystr) :
  scanning seen st ->
  (mentions_supplier_details raw = true -> clean_header raw) ->
  exists st',
    scan_line true st raw = Returned st'
    /\ scanning
         (seen ++ if mentions_supplier_details raw then [raw] else []) st'.
Proof.
  intros Hscanning Hclean.
  pose proof Hscanning as (flat & Hfo & Hflat & Hidx & [Hkeys Hblocks] & Hcur).
  unfold scan_line.
  destruct (nonempty (strip raw)) eqn:Hne; cbn [negb].
  2:{ rewrite (blank_not_mentioned _ Hne), app_nil_r. now exists st. }
  destruct (mentions_supplier_details raw) eqn:Hm.
  - rewrite (match_section_supplier Hm (Hclean eq_refl)).
    change (contains (lit "Supplier Details") (lit "Supplier Details") && true)
      with true. cbv iota.
    eexists. split; [reflexivity|]. exists flat.
    cbn [formatted_output current_section supplier_index supplier_data].
    assert (Hfresh : ~ In (S (supplier_index st))
                       (Dict.keys (supplier_data st))).
    { rewrite Hkeys, in_seq. lia. }
    split; [exact Hfo|]. split; [exact Hflat|]. split; [|split].
    + rewrite length_app. simpl. lia.
    + rewrite (set_fresh Nat.eqb nat_eqb_eq) by exact Hfresh. split.
      * unfold Dict.keys in *. rewrite map_app, Hkeys, length_app, seq_app.
        simpl. now rewrite Hidx.
      * apply Forall2_app; [exact Hblocks|].
        constructor; [|constructor]. now exists [].
    + intros cur [= <-]. split; [|discriminate].
      intros _ H. now apply app_eq_nil in H as [_ H].
  - rewrite app_nil_r.
    destruct (match_section (strip raw)) as [[key d]|] eqn:Hms.
    + destruct (match_section_other _ Hm Hms) as (Hd & Hnsd & Hc).
      rewrite Hc. cbn [andb].
      eexists. split; [reflexivity|].
      exists (flat ++ [section_line d (header_content key (strip raw))]).
      cbn [formatted_output current_section supplier_index supplier_data].
      split; [now rewrite Hfo|]. split; [|split; [exact Hidx|split]].
      * apply Forall_app. split; [exact Hflat|].
        constructor; [|constructor]. now apply flat_entry_section_line.
      * now split.
      * intros cur [= <-]. split.
        -- intros H. apply str_eqb_eq in H. contradiction.
        -- intros _ H. now apply app_eq_nil in H as [_ H].
    + destruct (current_section st) as [cur|] eqn:Hc0; [|now exists st].
      destruct (nonempty cur); cbn [andb]; [|now exists st].
      destruct (Hcur cur eq_refl) as [Hseen Hnonflat].
      cbn [andb]. destruct (str_eqb cur (lit "Supplier Details")) eqn:Hsd.
      * destruct (Dict.get Nat.eqb (supplier_index st) (supplier_data st))
          as [block|] eqn:Hget.
        2:{ exfalso. apply (get_none Nat.eqb nat_eqb_eq) in Hget.
            apply Hget. rewrite Hkeys, in_seq, Hidx.
            specialize (Hseen eq_refl). destruct seen; [contradiction|].
            simpl. lia. }
        unfold append_to_block. rewrite Hget. cbn [bind].
        eexists. split; [reflexivity|]. exists flat.
        cbn [formatted_output current_section supplier_index supplier_data].
        split; [exact Hfo|]. split; [exact Hflat|].
        split; [exact Hidx|]. split.
        -- split.
           ++ now rewrite (@keys_set_present _ _ _ _ Hget).
           ++ apply (@Forall2_set
                       (fun h k v => exists ks, v = supplier_block k h ks)
                       seen (supplier_data st) (supplier_index st) block);
                [exact Hblocks | exact Hget |].
              intros h (ks & ->). exists (ks ++ [strip raw]).
              unfold supplier_block. now rewrite map_app.
        -- intros cur' [= <-]. rewrite Hsd. split; assumption.
      * destruct (append_to_last_flat (lit " " ++ strip raw)
                    (Hnonflat eq_refl) Hflat) as (flat' & Happ & Hflat' & Hne').
        rewrite Hfo, Happ. cbn [bind].
        eexists. split; [reflexivity|]. exists flat'.
        cbn [formatted_output current_section supplier_index supplier_data].
        split; [reflexivity|]. split; [exact Hflat'|].
        split; [exact Hidx|]. split; [now split|].
        intros cur' [= <-]. rewrite Hsd.
        split; [discriminate | intros _; exact Hne'].
Qed.

Lemma scan_scanning (lines seen : list pystr) (st : locals) :
  scanning seen st ->
  (forall raw, In raw lines ->
               mentions_supplier_details raw = true -> clean_header raw) ->
  exists st',
    scan true st lines = Returned st'
    /\ scanning (seen ++ supplier_lines lines) st'.
Proof.
  revert seen st. induction lines as [|raw lines IH]; intros seen st Hs Hclean.
  - exists st. now rewrite app_nil_r.
  - destruct (@scan_line_scanning seen st raw Hs) as (st1 & Hstep & Hs1).
    { apply Hclean. now left. }
    destruct (IH _ st1 Hs1) as (st' & Hscan & Hs').
    { intros r Hr. apply Hclean. now right. }
    exists st'. split.
    + cbn [scan]. rewrite Hstep. exact Hscan.
    + unfold supplier_lines in *. cbn [filter].
      destruct (mentions_supplier_details raw);
        now rewrite <- app_assoc in Hs'.
Qed.

End MultiScan.

(** C8, as stated, fails: of three lines that mention "supplier details"
    the one that also holds "email" is taken for an "Email" header, since
    that keyword is looked for first; two blocks are opened, not three. *)
Lemma three_supplier_lines_counterexample :
  let text :=
    lit "Supplier Details: Acme, email a@b.c" ++ [newline]
    ++ lit "Supplier Details: Bolt" ++ [newline]
    ++ lit "Supplier Details: Crane" in
  contains (lit "Error") text = false
  /\ List.length (supplier_lines (split newline text)) = 3
  /\ exists out,
      format_deep_scrape_output text = Returned out
      /\ split newline out
         = [ marker;
             lit "**Emails**: Acme, email a@b.c";
             lit "**Supplier 1 Details**: Bolt";
             lit "**Supplier 2 Details**: Crane";
             lit "**Phone Numbers**: Not found in the text.";
             lit "**Supplier Details**: Not found in the text.";
             lit "**Location**: Not specified in the text.";
             lit "**Product Pricing**: Not found in the text.";
             lit "**ISO Certifications**: No ISO certifications mentioned.";
             lit "**Manufacturing Process Summary**: Please contact the supplier for details." ]
      /\ contains (lit "**Supplier 3 Details**") out = false.
Proof.
  intros text. split; [reflexivity|]. split; [reflexivity|].
  eexists. split; [vm_compute; reflexivity|]. split; reflexivity.
Qed.

(** C8, amended.  When exactly three lines of a text without "Error"
    mention "supplier details", and none of the three holds "phone
    number" or "email" in any case, the scanned list is the marker, then
    entries of the other sections, then three blocks, indexed 1, 2, 3, one
    for each of the three lines in their order; the marker is the first
    line of the output. *)
Theorem format_three_supplier_blocks (result l1 l2 l3 : pystr) :
  contains (lit "Error") result = false ->
  supplier_lines (split newline result) = [l1; l2; l3] ->
  clean_header l1 -> clean_header l2 -> clean_header l3 ->
  exists flat k1 k2 k3 rest,
    let body :=
      marker :: flat ++ supplier_block 1 l1 k1
        ++ supplier_block 2 l2 k2 ++ supplier_block 3 l3 k3 in
    Forall flat_entry flat
    /\ scanned_lines result = Returned body
    /\ format_deep_scrape_output result
       = Returned (join [newline] (body ++ defaults_for body))
    /\ join [newline] (body ++ defaults_for body)
       = marker ++ newline :: rest.
Proof.
  intros Hno Hlines Hc1 Hc2 Hc3.
  destruct (@scan_scanning (split newline result) []
              (Locals [marker] None 0 []))
    as (st & Hscan & Hst).
  { exists []. repeat split; try constructor; discriminate. }
  { intros raw Hraw Hm.
    assert (Hin : In raw [l1; l2; l3]).
    { rewrite <- Hlines. apply filter_In. now split. }
    destruct Hin as [<-|[<-|[<-|[]]]]; assumption. }
  rewrite app_nil_l, Hlines in Hst.
  destruct Hst as (flat & Hfo & Hflat & _ & [Hkeys Hblocks] & _).
  inversion Hblocks as [|? [i1 b1] ? d1 (k1 & Hb1) Hblocks1]; subst.
  inversion Hblocks1 as [|? [i2 b2] ? d2 (k2 & Hb2) Hblocks2]; subst.
  inversion Hblocks2 as [|? [i3 b3] ? d3 (k3 & Hb3) Hblocks3]; subst.
  inversion Hblocks3; subst.
  match goal with H : _ = supplier_data st |- _ => rewrite <- H in Hkeys end.
  simpl in Hkeys, Hb1, Hb2, Hb3. injection Hkeys as -> -> ->. subst b1 b2 b3.
  assert (Hbody :
    scanned_lines result
    = Returned (marker :: flat ++ supplier_block 1 l1 k1
                  ++ supplier_block 2 l2 k2 ++ supplier_block 3 l3 k3)).
  { unfold scanned_lines. rewrite Hlines.
    change (1 <? List.length [l1; l2; l3]) with true. cbv iota.
    rewrite Hscan. cbn [bind]. rewrite Hfo.
    match goal with H : _ = supplier_data st |- _ => rewrite <- H end.
    unfold extend_with_blocks. cbn [fold_left snd].
    now rewrite <- !app_assoc. }
  set (blocks := flat ++ supplier_block 1 l1 k1 ++ supplier_block 2 l2 k2
                 ++ supplier_block 3 l3 k3) in *.
  exists flat, k1, k2, k3,
    (join [newline] (blocks ++ defaults_for (marker :: blocks))).
  cbv zeta. fold blocks.
  split; [exact Hflat|]. split; [exact Hbody|].
  split; [now apply format_of_scanned|].
  assert (Hne : blocks ++ defaults_for (marker :: blocks) <> []).
  { unfold blocks, supplier_block. intros E.
    apply app_eq_nil in E as [E _]. apply app_eq_nil in E as [_ E].
    discriminate E. }
  cbn [app].
  destruct (blocks ++ defaults_for (marker :: blocks));
    [now elim Hne | reflexivity].
Qed.

(** C8 amended, at a reply with three suppliers, a note on the first one
    and a location. *)
Lemma format_three_supplier_blocks_witness :
  let l1 := lit "Supplier Details: Acme" in
  let l2 := lit "Supplier Details: Bolt" in
  let l3 := lit "Supplier Details: Crane" in
  let text :=
    l1 ++ [newline] ++ lit "  founded 1990" ++ [newline] ++ l2 ++ [newline]
    ++ lit "Location: Pune" ++ [newline] ++ l3 in
  exists flat k1 k2 k3 rest,
    scanned_lines text
    = Returned (marker :: flat ++ supplier_block 1 l1 k1
                  ++ supplier_block 2 l2 k2 ++ supplier_block 3 l3 k3)
    /\ format_deep_scrape_output text = Returned (marker ++ newline :: rest).
Proof.
  intros l1 l2 l3 text.
  destruct (@format_three_supplier_blocks text l1 l2 l3)
    as (flat & k1 & k2 & k3 & rest & _ & Hbody & Hout & Hfirst);
    try reflexivity; try (split; reflexivity).
  exists flat, k1, k2, k3, rest. split; [exact Hbody|].
  rewrite Hout. now f_equal.
Defined.

(** ** The formatter: a second pass over its own output *)

Unset Implicit Arguments.

Section SecondPass.
























Lemma padded_not_nil (body : list pystr) : body ++ defaults_for body <> [].
Proof.
  intros E.
  pose proof (@present_after_pad body (lit "Location")) as Hp.
  rewrite E in Hp. discriminate Hp.
  unfold display_names, sections, Dict.values; simpl. tauto.
Qed.

End SecondPass.




(** * Further properties of the code *)

(** ** The retriever, for any number of retries *)

Section RetrieverBounds.

Variable http : nat -> pystr -> http_reply.
Variable get_text : pystr -> pystr.

Lemma total_sleep_app (a b : list event) :
  total_sleep (a ++ b) = total_sleep a + total_sleep b.
Proof. unfold total_sleep. now rewrite map_app, list_sum_app. Qed.

Lemma count_gets_app (a b : list event) :
  count_gets (a ++ b) = count_gets a + count_gets b.
Proof. unfold count_gets. now rewrite filter_app, length_app. Qed.

Lemma gets_extend (s : state) (es : list event) :
  gets (State (trace s ++ es) (cache s)) = gets s + count_gets es.
Proof. unfold gets, count_gets. cbn [trace]. now rewrite filter_app, length_app. Qed.

(** A retryable reply costs one turn: a GET, a warning and a wait of
    three or five seconds. *)
Lemma attempts_retry (url : pystr) (retries todo : nat) (s : state) :
  retryable (http (gets s) url) = true ->
  exists w n,
    (n = 3 \/ n = 5)
    /\ attempts http get_text url retries (S todo) s
       = attempts http get_text url retries todo
           (State (trace s ++ [Get url; StWarning w; Sleep n]) (cache s)).
Proof.
  intros Hretry. cbn [attempts]. unfold mbind at 1, requests_get.
  destruct (http (gets s) url) as [code body|e]; cbn [retryable] in Hretry.
  - assert (H200 : (code =? 200)%Z = false).
    { apply orb_true_iff in Hretry as [H|H]; apply Z.eqb_eq in H; subst;
        reflexivity. }
    rewrite H200, Hretry.
    exists (access_denied url (retries - S todo) retries), 5.
    split; [now right|]. unfold mbind, emit; cbn [trace cache].
    now rewrite <- !app_assoc.
  - exists (retrying_in_3 e), 3. split; [now left|].
    unfold mbind, emit; cbn [trace cache]. now rewrite <- !app_assoc.
Qed.

Lemma last_behind (A : Type) (a b : list A) (d : A) :
  b <> [] -> last (a ++ b) d = last b d.
Proof.
  intros Hb. induction a as [|x a IH]; [reflexivity|].
  simpl. destruct (a ++ b) eqn:E; [|exact IH].
  apply app_eq_nil in E as [_ E]. contradiction.
Qed.

Lemma attempts_bounded (url : pystr) (retries todo : nat) (s : state) :
  exists r es,
    attempts http get_text url retries todo s
    = (Returned r, State (trace s ++ es) (cache s))
    /\ count_gets es <= todo
    /\ total_sleep es <= 5 * todo
    /\ (r = None -> exists msg, last es (Get url) = StError msg).
Proof.
  revert s. induction todo as [|todo IH]; intros s.
  - exists None, [StError (failed_after url retries)].
    repeat split; try (cbn; lia). intros _. now eexists.
  - destruct (retryable (http (gets s) url)) eqn:Hretry.
    + destruct (attempts_retry url retries todo s Hretry)
        as (w & n & Hn & ->).
      destruct (IH (State (trace s ++ [Get url; StWarning w; Sleep n])
                          (cache s)))
        as (r & es & Heq & Hgets & Hsleep & Hlast).
      exists r, ([Get url; StWarning w; Sleep n] ++ es).
      rewrite Heq. cbn [trace cache]. rewrite <- app_assoc.
      split; [reflexivity|].
      rewrite count_gets_app, total_sleep_app.
      split; [cbn; lia|]. split; [destruct Hn; subst; cbn; lia|].
      intros Hr. destruct (Hlast Hr) as (msg & Hmsg). exists msg.
      destruct es as [|e es]; [discriminate Hmsg|].
      rewrite last_behind by discriminate. exact Hmsg.
    + cbn [attempts]. unfold mbind at 1, requests_get.
      destruct (http (gets s) url) as [code body|e];
        cbn [retryable] in Hretry; [|discriminate].
      destruct (code =? 200)%Z.
      * exists (Some (get_text body)), [Get url].
        repeat split; try (cbn; lia). discriminate.
      * rewrite Hretry.
        exists None, [Get url; StError (failed_status code url)].
        unfold mbind, emit, ret; cbn. rewrite <- app_assoc.
        repeat split; try lia. intros _. now eexists.
Qed.

Lemma attempts_then_success (url : pystr) (retries : nat) (body : pystr)
      (k todo : nat) (s : state) :
  k < todo ->
  (forall i, i < k -> retryable (http (gets s + i) url) = true) ->
  http (gets s + k) url = Response 200 body ->
  exists es,
    attempts http get_text url retries todo s
    = (Returned (Some (get_text body)), State (trace s ++ es) (cache s))
    /\ count_gets es = k + 1
    /\ 3 * k <= total_sleep es <= 5 * k.
Proof.
  revert todo s. induction k as [|k IH]; intros todo s Hlt Hretry Hok.
  - destruct todo as [|todo]; [lia|]. rewrite Nat.add_0_r in Hok.
    exists [Get url]. cbn [attempts]. unfold mbind at 1, requests_get.
    rewrite Hok. cbn. repeat split; lia.
  - destruct todo as [|todo]; [lia|].
    assert (H0 : retryable (http (gets s) url) = true).
    { rewrite <- (Nat.add_0_r (gets s)). apply Hretry. lia. }
    destruct (attempts_retry url retries todo s H0) as (w & n & Hn & ->).
    destruct (IH todo (State (trace s ++ [Get url; StWarning w; Sleep n])
                             (cache s)))
      as (es & Heq & Hgets & Hsleep).
    + lia.
    + intros i Hi. rewrite gets_extend. cbn [count_gets filter is_get List.length].
      replace (gets s + 1 + i) with (gets s + S i) by lia. apply Hretry. lia.
    + rewrite gets_extend. cbn [count_gets filter is_get List.length].
      replace (gets s + 1 + k) with (gets s + S k) by lia. exact Hok.
    + exists ([Get url; StWarning w; Sleep n] ++ es).
      rewrite Heq. cbn [trace cache]. rewrite <- app_assoc.
      split; [reflexivity|]. rewrite count_gets_app, total_sleep_app.
      split; [cbn; lia|]. destruct Hn; subst; cbn; lia.
Qed.

Lemma attempts_exhausted (url : pystr) (retries todo : nat) (s : state) :
  (forall i, i < todo -> retryable (http (gets s + i) url) = true) ->
  exists es,
    attempts http get_text url retries todo s
    = (Returned None,
       State (trace s ++ es ++ [StError (failed_after url retries)])
             (cache s))
    /\ count_gets es = todo
    /\ 3 * todo <= total_sleep es <= 5 * todo.
Proof.
  revert s. induction todo as [|todo IH]; intros s Hretry.
  - exists []. cbn. repeat split; lia.
  - assert (H0 : retryable (http (gets s) url) = true).
    { rewrite <- (Nat.add_0_r (gets s)). apply Hretry. lia. }
    destruct (attempts_retry url retries todo s H0) as (w & n & Hn & ->).
    destruct (IH (State (trace s ++ [Get url; StWarning w; Sleep n])
                        (cache s)))
      as (es & Heq & Hgets & Hsleep).
    + intros i Hi. rewrite gets_extend. cbn [count_gets filter is_get List.length].
      replace (gets s + 1 + i) with (gets s + S i) by lia. apply Hretry. lia.
    + exists ([Get url; StWarning w; Sleep n] ++ es).
      rewrite Heq. cbn [trace cache]. rewrite <- !app_assoc.
      split; [reflexivity|]. rewrite count_gets_app, total_sleep_app.
      split; [cbn; lia|]. destruct Hn; subst; cbn; lia.
Qed.

End RetrieverBounds.

(** X1.  Whatever the server answers, [extract_webpage_text] returns
    (it does not raise), leaves the cache alone, issues at most [retries]
    GETs and sleeps at most five seconds per retry; and when it gives
    nothing, the last thing it did was to report an error. *)
Theorem fetch_bounded_and_reported
        (http : nat -> pystr -> http_reply) (get_text : pystr -> pystr)
        (url : pystr) (retries : nat) (s : state) :
  exists r es,
    extract_webpage_text http get_text url retries s
    = (Returned r, State (trace s ++ es) (cache s))
    /\ count_gets es <= retries
    /\ total_sleep es <= 5 * retries
    /\ (r = None -> exists msg, last es (Get url) = StError msg).
Proof. apply attempts_bounded. Qed.

(** X2.  When the first [k] replies, with [k < retries], are 403, 429 or
    transport exceptions and the next one is a 200, the retriever returns
    the text of that page after exactly [k + 1] GETs, having slept between
    three and five seconds for each of the [k] failures. *)
Theorem fetch_retries_then_succeeds
        (http : nat -> pystr -> http_reply) (get_text : pystr -> pystr)
        (url body : pystr) (retries k : nat) (s : state) :
  k < retries ->
  (forall i, i < k -> retryable (http (gets s + i) url) = true) ->
  http (gets s + k) url = Response 200 body ->
  exists es,
    extract_webpage_text http get_text url retries s
    = (Returned (Some (get_text body)), State (trace s ++ es) (cache s))
    /\ count_gets es = k + 1
    /\ 3 * k <= total_sleep es <= 5 * k.
Proof. apply attempts_then_success. Qed.

(** X2, at a server that times out once, refuses once and then answers. *)
Lemma fetch_retries_then_succeeds_witness :
  let http := fun (n : nat) (_ : pystr) =>
    match n with
    | 0 => RequestException (lit "timeout")
    | 1 => Response 403 []
    | _ => Response 200 (lit "Acme Ltd")
    end in
  exists es,
    extract_webpage_text http (fun t => t) (lit "http://a.b") 3 (State [] [])
    = (Returned (Some (lit "Acme Ltd")), State es [])
    /\ count_gets es = 3 /\ total_sleep es = 8.
Proof.
  intros http.
  destruct (fetch_retries_then_succeeds http (fun t => t) (lit "http://a.b")
              (lit "Acme Ltd") 3 2 (State [] []))
    as (es & Hcall & Hgets & _).
  - lia.
  - intros [|[|i]] Hi; [reflexivity | reflexivity | lia].
  - reflexivity.
  - exists es. split; [exact Hcall|]. split; [exact Hgets|].
    vm_compute in Hcall. injection Hcall as <-. reflexivity.
Defined.

(** X3.  When each of the [retries] replies is a 403, a 429 or a transport
    exception, in any mix, the retriever gives up after exactly [retries]
    GETs: it returns [None], its last act is the "Failed to retrieve"
    report, and it has slept between [3 * retries] and [5 * retries]
    seconds.  With [retries = 0] it reports and returns at once. *)
Theorem fetch_gives_up_after_retries
        (http : nat -> pystr -> http_reply) (get_text : pystr -> pystr)
        (url : pystr) (retries : nat) (s : state) :
  (forall i, i < retries -> retryable (http (gets s + i) url) = true) ->
  exists es,
    extract_webpage_text http get_text url retries s
    = (Returned None,
       State (trace s ++ es ++ [StError (failed_after url retries)])
             (cache s))
    /\ count_gets es = retries
    /\ 3 * retries <= total_sleep es <= 5 * retries.
Proof. apply attempts_exhausted. Qed.

(** X3, at a network that is down, with five retries. *)
Lemma fetch_gives_up_after_retries_witness :
  exists es,
    extract_webpage_text (fun _ _ => RequestException (lit "down"))
                         (fun t => t) (lit "http://a.b") 5 (State [] [])
    = (Returned None,
       State (es ++ [StError (failed_after (lit "http://a.b") 5)]) [])
    /\ count_gets es = 5 /\ total_sleep es = 15.
Proof.
  destruct (fetch_gives_up_after_retries
              (fun _ _ => RequestException (lit "down")) (fun t => t)
              (lit "http://a.b") 5 (State [] []))
    as (es & Hcall & Hgets & _).
  - intros i _. reflexivity.
  - exists es. split; [exact Hcall|]. split; [exact Hgets|].
    vm_compute in Hcall. injection Hcall as Hes.
    apply (f_equal (@rev event)) in Hes.
    rewrite rev_app_distr in Hes. cbn [rev app] in Hes.
    injection Hes as Hes. apply (f_equal (@rev event)) in Hes.
    rewrite rev_involutive in Hes. subst es. reflexivity.
Defined.

(** ** The ranking normaliser, beyond the scores' range *)

(** X4.  When the completion service raises, [rank_suppliers] does not:
    the apology that [chat_with_openai] returns holds no brace, so the
    call reports the service's error, then "No valid JSON found", and
    returns [None]; [json.loads] is not reached. *)
Theorem rank_absent_when_service_fails
        (complete : nat -> pystr -> completion)
        (json_loads : pystr -> option json)
        (text e : pystr) (s : state) :
  complete (completions s) (chat_content (query text) []) = ApiException e ->
  rank_suppliers complete json_loads text s
  = (Returned None,
     State (trace s ++ [Complete (chat_content (query text) []);
                        StError (lit "OpenAI API error: " ++ e);
                        StError no_json_found])
           (cache s)).
Proof.
  intros Hfail. unfold rank_suppliers, mbind, chat_with_openai.
  unfold chat_content in Hfail. cbv zeta. rewrite Hfail.
  cbn [trace cache]. unfold rank_response.
  change (brace_span api_error_reply) with (@None pystr).
  unfold mbind, emit, ret. cbn [trace cache].
  now rewrite <- !app_assoc.
Qed.

(** X4, at a service that is out of quota. *)
Lemma rank_absent_when_service_fails_witness :
  fst (rank_suppliers (fun _ _ => ApiException (lit "quota"))
         (fun _ => Some JNull) (lit "Acme") (State [] []))
  = Returned None.
Proof.
  now rewrite (rank_absent_when_service_fails
                 (fun _ _ => ApiException (lit "quota"))
                 (fun _ => Some JNull) (lit "Acme") (lit "quota")
                 (State [] []) eq_refl).
Defined.

Section RankingMore.



End RankingMore.



Section ScoreShape.

Open Scope Q_scope.










End ScoreShape.



(** X7.  A JSON boolean passes the test for a number, since [bool] is a
    subclass of [int]: [true] is stored as the score 1 and [false] as the
    score 0, not as the neutral 3.0 of a missing score. *)
Theorem rank_boolean_is_a_score
        (scores : Dict.dict pystr json) (criterion : pystr) (b : bool) :
  Dict.get str_eqb criterion scores = Some (JBool b) ->
  stored_score scores criterion = (if b then 1%Q else 0%Q)
  /\ stored_score scores criterion <> 3.0%Q.
Proof.
  intros Hget. unfold stored_score. rewrite Hget.
  destruct b; split; (reflexivity || discriminate).
Qed.

(** X7, at a reply that answers one criterion with [true]. *)
Lemma rank_boolean_is_a_score_witness :
  stored_score [ (lit "certifications", JBool true) ] (lit "certifications")
  = 1%Q.
Proof.
  apply (rank_boolean_is_a_score [ (lit "certifications", JBool true) ]
           (lit "certifications") true eq_refl).
Defined.





Section BraceGreedy.

Lemma from_first_skip (c : ascii) (a u : pystr) :
  ~ In c a -> from_first c (a ++ c :: u) = Some (c :: u).
Proof.
  induction a as [|d a IH]; simpl; intros Hnot.
  - now rewrite Ascii.eqb_refl.
  - destruct (Ascii.eqb d c) eqn:E.
    + apply Ascii.eqb_eq in E. exfalso. apply Hnot. now left.
    + apply IH. intros Hin. apply Hnot. now right.
Qed.

Lemma brace_span_greedy (a b c : pystr) :
  ~ In "{"%char a -> ~ In "}"%char c ->
  brace_span (a ++ "{"%char :: b ++ "}"%char :: c)
  = Some ("{"%char :: b ++ ["}"%char]).
Proof.
  intros Ha Hc. unfold brace_span, upto_last.
  rewrite (from_first_skip "{"%char a _ Ha).
  rewrite rev_app_distr. simpl rev. rewrite <- app_assoc. simpl app.
  rewrite from_first_skip by (now rewrite <- in_rev).
  simpl rev. now rewrite rev_involutive.
Qed.

End BraceGreedy.

(** X10.  The JSON of a reply is taken from its first opening brace to its
    last closing brace: text before the first opening brace and after the
    last closing brace does not change what [rank_suppliers] makes of the
    reply, and the text in between reaches [json.loads] whole, inner
    braces included. *)
Theorem rank_ignores_text_around_json
        (json_loads : pystr -> option json) (a b c : pystr) (s : state) :
  ~ In "{"%char a -> ~ In "}"%char c ->
  brace_span (a ++ "{"%char :: b ++ "}"%char :: c)
  = Some ("{"%char :: b ++ ["}"%char])
  /\ rank_response json_loads (a ++ "{"%char :: b ++ "}"%char :: c) s
     = rank_response json_loads ("{"%char :: b ++ ["}"%char]) s.
Proof.
  intros Ha Hc.
  pose proof (brace_span_greedy a b c Ha Hc) as Hfull.
  pose proof (brace_span_greedy [] b [] (fun H => H) (fun H => H)) as Hbare.
  simpl app in Hbare. split; [exact Hfull|].
  unfold rank_response. now rewrite Hfull, Hbare.
Qed.

(** X10, at a reply that puts a sentence before and after its JSON. *)
Lemma rank_ignores_text_around_json_witness :
  brace_span (lit "Here you go: " ++ "{"%char
              :: lit "'A': {'x': 1}" ++ "}"%char :: lit " Hope it helps.")
  = Some (lit "{'A': {'x': 1}}").
Proof.
  apply (rank_ignores_text_around_json (fun _ => None) (lit "Here you go: ")
           (lit "'A': {'x': 1}") (lit " Hope it helps.") (State [] [])).
  - vm_compute. intuition discriminate.
  - vm_compute. intuition discriminate.
Defined.

(** ** The formatter, beyond the padding *)

Section FormatShape.

Lemma bold_app (x s : pystr) : bold x = true -> bold (x ++ s) = true.
Proof.
  unfold bold. rewrite !startswith_iff. intros (r & ->).
  exists (r ++ s). now rewrite <- app_assoc.
Qed.

Lemma forallb_append_last (P : pystr -> bool) (s : pystr)
      (out : list pystr) :
  out <> [] ->
  (forall x, P x = true -> P (x ++ s) = true) ->
  forallb P out = true ->
  forallb P (removelast out ++ [last out [] ++ s]) = true.
Proof.
  intros Hne HP. induction out as [|l out IH]; [now elim Hne|].
  intros Hall. apply andb_true_iff in Hall as [Hl Hout].
  destruct out as [|l' out].
  - simpl. now rewrite (HP l Hl).
  - change (removelast (l :: l' :: out)) with (l :: removelast (l' :: out)).
    change (last (l :: l' :: out) []) with (last (l' :: out) []).
    cbn [app forallb]. rewrite Hl. apply IH; [discriminate | exact Hout].
Qed.

Lemma extend_with_blocks_cons (x : pystr) (out : list pystr)
      (d : Dict.dict nat (list pystr)) :
  extend_with_blocks (x :: out) d = x :: extend_with_blocks out d.
Proof.
  unfold extend_with_blocks. revert out.
  induction d as [|kv d IH]; intros out; [reflexivity|].
  cbn [fold_left]. apply IH.
Qed.

(** One turn of the loop keeps the shape of [formatted_output]. *)
Lemma scan_line_shaped (multi : bool) (st st' : locals) (raw : pystr) :
  shaped multi st ->
  scan_line multi st raw = Returned st' ->
  shaped multi st'.
Proof.
  intros Hshape. unfold scan_line.
  destruct (negb (nonempty (strip raw))); [now intros [= <-]|].
  destruct (match_section (strip raw)) as [[key d]|] eqn:Hm.
  - apply match_section_in in Hm as [Hin _].
    rewrite (supplier_details_name Hin).
    destruct (str_eqb d (lit "Supplier Details") && multi) eqn:E;
      intros [= <-].
    + apply andb_true_iff in E as [Hd ->].
      destruct Hshape as (flat & Hfo & _). exists flat.
      split; [exact Hfo|]. cbn [current_section].
      intros cur [= <-]. rewrite Hd. discriminate.
    + destruct multi.
      * destruct Hshape as (flat & Hfo & _).
        exists (flat ++ [section_line d (header_content key (strip raw))]).
        cbn [formatted_output]. rewrite Hfo. split; [reflexivity|].
        intros _ _ _ H. now apply app_eq_nil in H as [_ H].
      * unfold shaped in *. cbn [formatted_output].
        rewrite forallb_app, Hshape. reflexivity.
  - destruct (current_section st) as [cur|] eqn:Hc; [|now intros [= <-]].
    destruct (nonempty cur && nonempty (strip raw)); [|now intros [= <-]].
    destruct (multi && str_eqb cur (lit "Supplier Details")) eqn:E.
    + unfold append_to_block.
      destruct (Dict.get Nat.eqb (supplier_index st) (supplier_data st));
        [|discriminate].
      cbn [bind]. intros [= <-].
      apply andb_true_iff in E as [-> Hsd].
      destruct Hshape as (flat & Hfo & _). exists flat.
      split; [exact Hfo|]. cbn [current_section].
      intros cur' [= <-]. rewrite Hsd. discriminate.
    + destruct multi.
      * cbn [andb] in E. destruct Hshape as (flat & Hfo & Hcur).
        specialize (Hcur cur Hc E). rewrite Hfo.
        destruct flat as [|l flat]; [now elim Hcur|].
        cbn [append_to_last bind]. intros [= <-].
        exists (removelast (l :: flat)
                ++ [last (l :: flat) [] ++ lit " " ++ strip raw]).
        split; [reflexivity|].
        intros _ _ _ H. now apply app_eq_nil in H as [_ H].
      * unfold shaped in *.
        destruct (formatted_output st) as [|l out] eqn:Hfo; [discriminate|].
        unfold append_to_last, bind. cbv beta match.
        intros [= <-]. cbn [formatted_output].
        apply (forallb_append_last bold (lit " " ++ strip raw) (l :: out));
          [discriminate | | exact Hshape].
        intros x. apply bold_app.
Qed.

Lemma scan_shaped (multi : bool) (lines : list pystr) (st st' : locals) :
  shaped multi st ->
  scan multi st lines = Returned st' ->
  shaped multi st'.
Proof.
  revert st. induction lines as [|raw lines IH]; intros st Hshape.
  - now intros [= <-].
  - cbn [scan].
    destruct (scan_line multi st raw) as [st1|e] eqn:Hstep; [|discriminate].
    cbn [bind]. apply IH. exact (scan_line_shaped _ _ _ _ Hshape Hstep).
Qed.

(** The scanned lines of a text: the marker first in the
    multiple-suppliers mode, bold titles only outside it. *)
Lemma scanned_lines_shape (result : pystr) :
  exists body,
    scanned_lines result = Returned body
    /\ if multiple_suppliers result
       then exists rest, body = marker :: rest
       else forallb bold body = true.
Proof.
  destruct (scanned_lines_returns result) as (body & Hbody).
  exists body. split; [exact Hbody|].
  revert Hbody. unfold scanned_lines, multiple_suppliers.
  set (multi := 1 <? List.length (supplier_lines (split newline result))).
  destruct (scan multi (Locals (if multi then [marker] else []) None 0 [])
                 (split newline result)) as [st|e] eqn:Hscan; [|discriminate].
  cbn [bind]. intros [= <-].
  assert (Hshape : shaped multi st).
  { apply (scan_shaped multi (split newline result) _ _) in Hscan;
      [exact Hscan|].
    destruct multi; cbn.
    - exists []. split; [reflexivity|]. discriminate.
    - reflexivity. }
  destruct multi; [|exact Hshape].
  destruct Hshape as (flat & -> & _).
  rewrite extend_with_blocks_cons. eexists. reflexivity.
Qed.

Lemma defaults_bold (body : list pystr) :
  forallb bold (defaults_for body) = true.
Proof.
  unfold defaults_for. induction (filter _ display_names) as [|d ds IH];
    [reflexivity|].
  cbn [map forallb]. now rewrite IH.
Qed.

Lemma join_head_bold (out : list pystr) :
  out <> [] -> forallb bold out = true -> bold (join [newline] out) = true.
Proof.
  destruct out as [|l out]; [now intros H; elim H|].
  intros _ Hall. apply andb_true_iff in Hall as [Hl _].
  destruct out as [|l' out]; [exact Hl|].
  cbn [join]. now apply bold_app.
Qed.

Lemma present_in_join (d : pystr) (out : list pystr) :
  present d out = true -> contains d (join [newline] out) = true.
Proof.
  unfold present. induction out as [|l out IH]; [discriminate|].
  cbn [existsb]. intros H. apply orb_true_iff in H as [Hl|Hout].
  - destruct out as [|l' out]; [exact Hl|].
    cbn [join]. apply (@contains_infix d [] l _ Hl).
  - destruct out as [|l' out]; [discriminate|].
    change (join [newline] (l :: l' :: out))
      with (l ++ [newline] ++ join [newline] (l' :: out)).
    specialize (IH Hout).
    apply contains_iff in IH as (a & b & ->).
    apply contains_iff. exists (l ++ [newline] ++ a), b.
    now rewrite <- !app_assoc.
Qed.

End FormatShape.

(** X11.  [format_deep_scrape_output] returns a text for every input: it
    raises neither [IndexError] nor [KeyError], its text is not empty, and
    it is never "No structured data extracted.", the value of the last
    line's [else]; for an input without "Error" each of the seven display
    names occurs in the text. *)
Theorem format_returns_text (result : pystr) :
  exists out,
    format_deep_scrape_output result = Returned out
    /\ out <> []
    /\ out <> sentinel
    /\ (contains (lit "Error") result = false ->
        forall d, In d display_names -> contains d out = true).
Proof.
  destruct (contains (lit "Error") result) eqn:Herr.
  - exists result. split; [|split; [|split]].
    + unfold format_deep_scrape_output. now rewrite Herr.
    + intros ->. discriminate.
    + intros ->. discriminate.
    + discriminate.
  - destruct (scanned_lines_returns result) as (body & Hbody).
    exists (join [newline] (body ++ defaults_for body)).
    assert (Hall : forall d, In d display_names ->
              contains d (join [newline] (body ++ defaults_for body)) = true).
    { intros d Hd. now apply present_in_join, present_after_pad. }
    assert (Hloc : contains (lit "Location")
                     (join [newline] (body ++ defaults_for body)) = true).
    { apply Hall. unfold display_names, sections, Dict.values; simpl. tauto. }
    split; [now apply format_of_scanned|]. split; [|split].
    + intros E. rewrite E in Hloc. discriminate.
    + intros E. rewrite E in Hloc. discriminate.
    + intros _. exact Hall.
Qed.

(** X12.  For an input without "Error", the first line of the output tells
    the mode: when more than one line of the input mentions "supplier
    details", the output opens with the line "Multiple Suppliers Detected
    on this Website", which no later line changes; otherwise it opens with
    the two asterisks of a bold title. *)
Theorem format_first_line_tells_mode (result : pystr) :
  contains (lit "Error") result = false ->
  exists out,
    format_deep_scrape_output result = Returned out
    /\ if multiple_suppliers result
       then exists rest, out = marker ++ newline :: rest
       else startswith (lit "**") out = true.
Proof.
  intros Hno.
  destruct (scanned_lines_shape result) as (body & Hbody & Hshape).
  exists (join [newline] (body ++ defaults_for body)).
  split; [now apply format_of_scanned|].
  destruct (multiple_suppliers result).
  - destruct Hshape as (rest & ->).
    pose proof (@present_after_pad (marker :: rest) (lit "Location")) as Hp.
    cbn [app] in *.
    destruct (rest ++ defaults_for (marker :: rest)) as [|l ls].
    + exfalso. apply diff_false_true. rewrite <- Hp; [reflexivity|].
      unfold display_names, sections, Dict.values; simpl. tauto.
    + eexists. reflexivity.
  - apply join_head_bold; [apply padded_not_nil|].
    now rewrite forallb_app, Hshape, defaults_bold.
Qed.

(** X12, at a reply that lists two suppliers. *)
Lemma format_first_line_tells_mode_witness :
  exists out rest,
    format_deep_scrape_output
      (lit "Supplier Details: A" ++ [newline] ++ lit "Supplier Details: B")
    = Returned out
    /\ out = marker ++ newline :: rest.
Proof.
  destruct (format_first_line_tells_mode
              (lit "Supplier Details: A" ++ [newline]
               ++ lit "Supplier Details: B") eq_refl)
    as (out & Hout & Hshape).
  change (multiple_suppliers _) with true in Hshape.
  destruct Hshape as (rest & Hrest).
  exists out, rest. split; [exact Hout | exact Hrest].
Defined.

Section FormatSkips.

Lemma split_app (sep : ascii) (p r : pystr) :
  split sep (p ++ sep :: r) = split sep p ++ split sep r.
Proof.
  induction p as [|c t IH]; cbn [app split].
  - now rewrite Ascii.eqb_refl.
  - rewrite IH. destruct (Ascii.eqb c sep); [reflexivity|].
    pose proof (@split_not_nil sep t) as Hne.
    destruct (split sep t) as [|l ls]; [now elim Hne | reflexivity].
Qed.

Lemma scan_app (multi : bool) (l1 l2 : list pystr) (st : locals) :
  scan multi st (l1 ++ l2)
  = (st' <- scan multi st l1 ;; scan multi st' l2).
Proof.
  revert st. induction l1 as [|raw l1 IH]; intros st; [reflexivity|].
  cbn [app scan]. destruct (scan_line multi st raw); [apply IH | reflexivity].
Qed.

Lemma passed_over_not_mentioned (raw : pystr) :
  passed_over raw = true -> mentions_supplier_details raw = false.
Proof.
  unfold passed_over. intros H. apply orb_true_iff in H as [Hblank|Hnone].
  - apply blank_not_mentioned. now apply negb_true_iff.
  - destruct (match_section (strip raw)) eqn:Hm; [discriminate|].
    unfold match_section in Hm.
    pose proof (find_none _ _ Hm (lit "Supplier Details",
                                  lit "Supplier Details")) as Hsd.
    rewrite <- mentions_stripped. apply Hsd.
    unfold sections. simpl. tauto.
Qed.

Lemma supplier_lines_passed_over (lines : list pystr) :
  forallb passed_over lines = true -> supplier_lines lines = [].
Proof.
  unfold supplier_lines. induction lines as [|raw lines IH]; [reflexivity|].
  cbn [forallb filter]. intros H. apply andb_true_iff in H as [Hraw Hrest].
  now rewrite (passed_over_not_mentioned raw Hraw), IH.
Qed.

Lemma scan_line_passed_over (multi : bool) (st : locals) (raw : pystr) :
  current_section st = None ->
  passed_over raw = true ->
  scan_line multi st raw = Returned st.
Proof.
  intros Hcur. unfold passed_over, scan_line.
  destruct (nonempty (strip raw)); cbn [negb orb]; [|reflexivity].
  destruct (match_section (strip raw)); [discriminate|].
  now rewrite Hcur.
Qed.

Lemma scan_passed_over (multi : bool) (pre : list pystr) (st : locals) :
  current_section st = None ->
  forallb passed_over pre = true ->
  scan multi st pre = Returned st.
Proof.
  intros Hcur. induction pre as [|raw pre IH]; [reflexivity|].
  cbn [forallb scan]. intros H. apply andb_true_iff in H as [Hraw Hrest].
  rewrite (scan_line_passed_over multi st raw Hcur Hraw). now apply IH.
Qed.

Lemma lstrip_blank (w : pystr) : forallb isspace w = true -> lstrip w = [].
Proof.
  induction w as [|c w IH]; [reflexivity|].
  cbn [forallb lstrip]. intros H. apply andb_true_iff in H as [-> Hw].
  now apply IH.
Qed.

Lemma strip_blank (w : pystr) : forallb isspace w = true -> strip w = [].
Proof.
  intros H. unfold strip. now rewrite (lstrip_blank w H).
Qed.

Lemma split_blank (w : pystr) :
  forallb isspace w = true ->
  forallb (fun l => forallb isspace l) (split newline w) = true.
Proof.
  induction w as [|c w IH]; [reflexivity|].
  cbn [forallb split]. intros H. apply andb_true_iff in H as [Hc Hw].
  specialize (IH Hw).
  destruct (Ascii.eqb c newline); [exact IH|].
  destruct (split newline w) as [|l ls]; cbn [forallb] in *.
  - now rewrite Hc.
  - now rewrite Hc.
Qed.

Lemma scan_blank (multi : bool) (blanks : list pystr) (st : locals) :
  forallb (fun l => forallb isspace l) blanks = true ->
  scan multi st blanks = Returned st.
Proof.
  induction blanks as [|raw blanks IH]; [reflexivity|].
  cbn [forallb scan]. intros H. apply andb_true_iff in H as [Hraw Hrest].
  unfold scan_line. rewrite (strip_blank raw Hraw). cbn [nonempty negb bind].
  now apply IH.
Qed.

Lemma supplier_lines_blank (blanks : list pystr) :
  forallb (fun l => forallb isspace l) blanks = true ->
  supplier_lines blanks = [].
Proof.
  unfold supplier_lines. induction blanks as [|raw blanks IH]; [reflexivity|].
  cbn [forallb filter]. intros H. apply andb_true_iff in H as [Hraw Hrest].
  rewrite blank_not_mentioned; [now apply IH|].
  now rewrite (strip_blank raw Hraw).
Qed.

Lemma blank_no_error (w : pystr) :
  forallb isspace w = true -> contains (lit "Error") w = false.
Proof.
  intros Hw. destruct (contains (lit "Error") w) eqn:E; [|reflexivity].
  apply contains_iff in E as (a & b & ->).
  rewrite !forallb_app in Hw.
  apply andb_true_iff in Hw as [_ Hw]. apply andb_true_iff in Hw as [Hw _].
  discriminate Hw.
Qed.

Lemma supplier_lines_app (l1 l2 : list pystr) :
  supplier_lines (l1 ++ l2) = supplier_lines l1 ++ supplier_lines l2.
Proof. apply filter_app. Qed.

End FormatSkips.

(** X13.  What comes before the first header is dropped: when the lines
    of [preamble] are blank or hold none of the seven keywords, a text
    without "Error" that opens with them is formatted as the text that
    follows them. *)
Theorem format_drops_preamble (preamble rest : pystr) :
  contains (lit "Error") (preamble ++ newline :: rest) = false ->
  forallb passed_over (split newline preamble) = true ->
  format_deep_scrape_output (preamble ++ newline :: rest)
  = format_deep_scrape_output rest.
Proof.
  intros Hno Hpre. pose proof Hno as Hparts.
  rewrite (@contains_around newline (lit "Error") preamble rest eq_refl)
    in Hparts.
  apply orb_false_iff in Hparts as [_ Hrest].
  unfold format_deep_scrape_output. rewrite Hno, Hrest.
  unfold format_lines, scanned_lines. cbv zeta.
  rewrite split_app, supplier_lines_app.
  rewrite (supplier_lines_passed_over _ Hpre). cbn [app].
  rewrite scan_app.
  rewrite scan_passed_over; [reflexivity | reflexivity | exact Hpre].
Qed.

(** X13, at a reply that opens with a sentence and a blank line. *)
Lemma format_drops_preamble_witness :
  format_deep_scrape_output
    (lit "Here is what I found." ++ [newline] ++ newline
     :: lit "Email: a@b.c")
  = format_deep_scrape_output (lit "Email: a@b.c").
Proof.
  apply (format_drops_preamble (lit "Here is what I found." ++ [newline])
           (lit "Email: a@b.c")); reflexivity.
Defined.

(** X14.  Blank lines change nothing, wherever they stand: a run of
    whitespace between two line breaks can be taken out of a text without
    "Error" and the formatted text stays the same; in particular a blank
    line does not close the section that is open. *)
Theorem format_ignores_blank_lines (before blank after : pystr) :
  contains (lit "Error") (before ++ newline :: after) = false ->
  forallb isspace blank = true ->
  format_deep_scrape_output (before ++ newline :: blank ++ newline :: after)
  = format_deep_scrape_output (before ++ newline :: after).
Proof.
  intros Hno Hblank. pose proof Hno as Hparts.
  rewrite (@contains_around newline (lit "Error") before after eq_refl)
    in Hparts.
  apply orb_false_iff in Hparts as [Hbefore Hafter].
  assert (Hno' : contains (lit "Error")
                   (before ++ newline :: blank ++ newline :: after) = false).
  { rewrite (@contains_around newline (lit "Error") before _ eq_refl).
    rewrite (@contains_around newline (lit "Error") blank after eq_refl).
    now rewrite Hbefore, Hafter, (blank_no_error blank Hblank). }
  pose proof (split_blank blank Hblank) as Hlines.
  unfold format_deep_scrape_output. rewrite Hno, Hno'.
  unfold format_lines, scanned_lines. cbv zeta.
  rewrite !split_app, !supplier_lines_app.
  rewrite (supplier_lines_blank _ Hlines). cbn [app].
  rewrite !scan_app.
  set (multi := 1 <? _).
  destruct (scan multi _ (split newline before)) as [st|e]; [|reflexivity].
  cbn [bind]. rewrite ?scan_app. now rewrite (scan_blank multi _ st Hlines).
Qed.

(** X14, at an entry whose continuation line follows a blank line. *)
Lemma format_ignores_blank_lines_witness :
  format_deep_scrape_output
    (lit "Location: Pune" ++ newline :: lit "  " ++ newline :: lit "India")
  = format_deep_scrape_output (lit "Location: Pune" ++ newline :: lit "India").
Proof.
  apply (format_ignores_blank_lines (lit "Location: Pune") (lit "  ")
           (lit "India")); reflexivity.
Defined.

(** ** Deep extraction, beyond the repeated call *)

Section CacheBounds.

Variable f : pystr -> M extraction.
Hypothesis f_keeps_cache : forall url s, cache (snd (f url s)) = cache s.

Lemma in_firstn (A : Type) (x : A) (n : nat) (l : list A) :
  In x (firstn n l) -> In x l.
Proof.
  intros H. rewrite <- (firstn_skipn n l). apply in_or_app. now left.
Qed.

Lemma NoDup_firstn (A : Type) (n : nat) (l : list A) :
  NoDup l -> NoDup (firstn n l).
Proof.
  intros H. rewrite <- (firstn_skipn n l) in H.
  exact (NoDup_app_remove_r _ _ H).
Qed.

Lemma NoDup_map_injective (A B : Type) (g : A -> B) (l : list A) :
  (forall x y, g x = g y -> x = y) -> NoDup l -> NoDup (map g l).
Proof.
  intros Hinj Hnd. induction Hnd as [|x l Hx Hnd IH]; cbn [map];
    constructor; [|exact IH].
  intros Hin. apply in_map_iff in Hin as (y & Hy & Hin).
  apply Hinj in Hy. now subst y.
Qed.

Lemma keys_firstn (n : nat) (t : Cache.table) :
  Dict.keys (firstn n t) = firstn n (Dict.keys t).
Proof. unfold Dict.keys. symmetry. apply firstn_map. Qed.

Lemma firstn_app_firstn (A : Type) (n : nat) (a b : list A) :
  firstn n (a ++ firstn n b) = firstn n (a ++ b).
Proof.
  rewrite !firstn_app, firstn_firstn. do 2 f_equal. lia.
Qed.

Lemma hit_shrinks (url : pystr) (v : extraction) (t : Cache.table) :
  Cache.lookup url t = Some v ->
  List.length (filter (fun kv => negb (str_eqb url (fst kv))) t)
  < List.length t.
Proof.
  unfold Cache.lookup. induction t as [|[k w] t IH]; [discriminate|].
  cbn [Dict.get filter fst]. destruct (str_eqb url k); cbn [negb].
  - intros _. cbn [List.length].
    pose proof (filter_length_le (fun kv => negb (str_eqb url (fst kv))) t).
    lia.
  - intros H. specialize (IH H). cbn [List.length]. lia.
Qed.

(** One call keeps the table within its bound, and adds no URL but its
    own. *)
Lemma lru_cache_bounded (url : pystr) (s : state) :
  bounded (cache s) ->
  bounded (cache (snd (Cache.lru_cache f url s)))
  /\ incl (Dict.keys (cache (snd (Cache.lru_cache f url s))))
          (url :: Dict.keys (cache s)).
Proof.
  intros [Hlen Hnd]. unfold Cache.lru_cache.
  destruct (Cache.lookup url (cache s)) as [v|] eqn:Hlook; cbn [snd cache].
  - unfold Cache.touch. split; [split|].
    + cbn [List.length]. pose proof (hit_shrinks url v (cache s) Hlook). lia.
    + cbn [Dict.keys map fst]. fold (Dict.keys (filter
        (fun kv => negb (str_eqb url (fst kv))) (cache s))).
      rewrite keys_filter_other. constructor.
      * rewrite filter_In, str_eqb_refl. intros [_ Hf]. discriminate.
      * now apply NoDup_filter.
    + cbn [Dict.keys map fst]. fold (Dict.keys (filter
        (fun kv => negb (str_eqb url (fst kv))) (cache s))).
      rewrite keys_filter_other. intros k [<-|Hk]; [now left|].
      right. now apply filter_In in Hk.
  - pose proof (f_keeps_cache url s) as Hcache.
    assert (Hfresh : ~ In url (Dict.keys (cache s))) by now apply lookup_notin.
    destruct (f url s) as [[v|e] s']; cbn [snd cache] in *; rewrite ?Hcache.
    + unfold Cache.store. split; [split|].
      * rewrite length_firstn. lia.
      * rewrite keys_firstn. apply NoDup_firstn. cbn. now constructor.
      * rewrite keys_firstn. intros k Hk. now apply in_firstn in Hk.
    + split; [now split|]. intros k Hk. now right.
Qed.

Lemma after_calls_bounded (urls : list pystr) (s : state) :
  bounded (cache s) ->
  bounded (cache (Cache.after_calls (Cache.lru_cache f) urls s))
  /\ incl (Dict.keys (cache (Cache.after_calls (Cache.lru_cache f) urls s)))
          (Dict.keys (cache s) ++ urls).
Proof.
  revert s. induction urls as [|u urls IH]; intros s Hb; cbn [Cache.after_calls].
  - split; [exact Hb|]. rewrite app_nil_r. apply incl_refl.
  - destruct (lru_cache_bounded u s Hb) as [Hb1 Hincl1].
    destruct (IH _ Hb1) as [Hb2 Hincl2]. split; [exact Hb2|].
    intros k Hk. apply Hincl2 in Hk. apply in_app_iff in Hk as [Hk|Hk].
    + apply Hincl1 in Hk as [<-|Hk]; apply in_or_app;
        [right; now left | now left].
    + apply in_or_app. right. now right.
Qed.

Hypothesis f_returns : forall url s, exists v s', f url s = (Returned v, s').

(** A miss puts the URL in front and cuts the table at [maxsize]. *)
Lemma miss_keys (u : pystr) (s : state) :
  Cache.lookup u (cache s) = None ->
  Dict.keys (cache (snd (Cache.lru_cache f u s)))
  = firstn Cache.maxsize (u :: Dict.keys (cache s)).
Proof.
  intros Hmiss. unfold Cache.lru_cache. rewrite Hmiss.
  pose proof (f_keeps_cache u s) as Hcache.
  destruct (f_returns u s) as (v & s' & Hf). rewrite Hf in *.
  cbn [snd cache] in *. unfold Cache.store.
  now rewrite keys_firstn, Hcache.
Qed.

(** After calls for distinct URLs that the table does not hold, the table
    holds them in front, the last one first. *)
Lemma fresh_calls_keys (fresh : list pystr) (s : state) :
  List.length (cache s) <= Cache.maxsize ->
  NoDup fresh ->
  (forall u, In u fresh -> Cache.lookup u (cache s) = None) ->
  Dict.keys (cache (Cache.after_calls (Cache.lru_cache f) fresh s))
  = firstn Cache.maxsize (rev fresh ++ Dict.keys (cache s)).
Proof.
  revert s. induction fresh as [|u fresh IH]; intros s Hlen Hnd Hmiss;
    cbn [Cache.after_calls].
  - cbn [rev app]. rewrite firstn_all2; [reflexivity|].
    unfold Dict.keys. now rewrite length_map.
  - inversion Hnd as [|? ? Hu Hnd']; subst.
    pose proof (miss_keys u s (Hmiss u (or_introl eq_refl))) as Hkeys.
    rewrite IH.
    + rewrite Hkeys, firstn_app_firstn. cbn [rev].
      now rewrite <- app_assoc.
    + rewrite <- (length_map fst). fold (Dict.keys (cache (snd
        (Cache.lru_cache f u s)))). rewrite Hkeys, length_firstn. lia.
    + exact Hnd'.
    + intros u' Hu'. apply lookup_notin. rewrite Hkeys.
      intros Hin. apply in_firstn in Hin as [<-|Hin]; [contradiction|].
      revert Hin. apply lookup_notin, Hmiss. now right.
Qed.

End CacheBounds.

Section DeepScrapeRuns.

Variable http : nat -> pystr -> http_reply.
Variable get_text : pystr -> pystr.
Variable complete : nat -> pystr -> completion.

Lemma count_completions_app (a b : list event) :
  count_completions (a ++ b) = count_completions a + count_completions b.
Proof. unfold count_completions. now rewrite filter_app, length_app. Qed.

Lemma completions_extend (s : state) (es : list event) :
  completions (State (trace s ++ es) (cache s))
  = completions s + count_completions es.
Proof.
  unfold completions, count_completions. cbn [trace].
  now rewrite filter_app, length_app.
Qed.

(** The retriever sends no request to the completion service. *)
Lemma attempts_no_completions (url : pystr) (retries todo : nat)
      (s : state) :
  exists r es,
    attempts http get_text url retries todo s
    = (Returned r, State (trace s ++ es) (cache s))
    /\ count_completions es = 0.
Proof.
  revert s. induction todo as [|todo IH]; intros s.
  - exists None, [StError (failed_after url retries)]. now split.
  - destruct (retryable (http (gets s) url)) eqn:Hretry.
    + destruct (attempts_retry http get_text url retries todo s Hretry)
        as (w & n & _ & ->).
      destruct (IH (State (trace s ++ [Get url; StWarning w; Sleep n])
                          (cache s)))
        as (r & es & Heq & Hnone).
      exists r, ([Get url; StWarning w; Sleep n] ++ es).
      rewrite Heq. cbn [trace cache]. rewrite <- app_assoc.
      split; [reflexivity|]. now rewrite count_completions_app, Hnone.
    + cbn [attempts]. unfold mbind at 1, requests_get.
      destruct (http (gets s) url) as [code body|e];
        cbn [retryable] in Hretry; [|discriminate].
      destruct (code =? 200)%Z.
      * exists (Some (get_text body)), [Get url]. now split.
      * rewrite Hretry.
        exists None, [Get url; StError (failed_status code url)].
        unfold mbind, emit, ret; cbn. rewrite <- app_assoc. now split.
Qed.

(** The retriever opens with a GET of the URL when it has a turn. *)
Lemma attempts_first_get (url : pystr) (retries todo : nat) (s : state) :
  exists r es,
    attempts http get_text url retries (S todo) s
    = (Returned r, State (trace s ++ Get url :: es) (cache s)).
Proof.
  destruct (retryable (http (gets s) url)) eqn:Hretry.
  - destruct (attempts_retry http get_text url retries todo s Hretry)
      as (w & n & _ & ->).
    destruct (attempts_returns http get_text url retries todo
                (State (trace s ++ [Get url; StWarning w; Sleep n])
                       (cache s)))
      as (r & es & ->).
    exists r, (StWarning w :: Sleep n :: es).
    cbn [trace cache]. now rewrite <- app_assoc.
  - cbn [attempts]. unfold mbind at 1, requests_get.
    destruct (http (gets s) url) as [code body|e];
      cbn [retryable] in Hretry; [|discriminate].
    destruct (code =? 200)%Z.
    + now exists (Some (get_text body)), [].
    + rewrite Hretry. exists None, [StError (failed_status code url)].
      unfold mbind, emit, ret; cbn. now rewrite <- app_assoc.
Qed.

(** What the retriever of [deep_scrape_website] costs. *)
Lemma extract_run (url : pystr) (s : state) :
  exists r es,
    extract_webpage_text http get_text url 3 s
    = (Returned r, State (trace s ++ Get url :: es) (cache s))
    /\ count_gets (Get url :: es) <= 3
    /\ count_completions es = 0
    /\ total_sleep es <= 15.
Proof.
  unfold extract_webpage_text.
  destruct (attempts_bounded http get_text url 3 3 s)
    as (r & es & Heq & Hgets & Hsleep & _).
  destruct (attempts_no_completions url 3 3 s) as (r1 & es1 & Heq1 & Hnone).
  destruct (attempts_first_get url 3 2 s) as (r2 & es2 & Heq2).
  rewrite Heq in Heq1, Heq2.
  injection Heq1 as _ Hes1. apply app_inv_head in Hes1. subst es1.
  injection Heq2 as _ Hes2. apply app_inv_head in Hes2. subst es.
  exists r, es2. split; [exact Heq|]. split; [exact Hgets|].
  split; [exact Hnone|]. exact Hsleep.
Qed.

(** What one call of [chat_with_openai] costs. *)
Lemma chat_run (user_input context : pystr) (s : state) :
  exists response es,
    chat_with_openai complete user_input context s
    = (Returned response,
       State (trace s ++ Complete (chat_content user_input context) :: es)
             (cache s))
    /\ count_gets es = 0
    /\ count_completions es = 0
    /\ total_sleep es = 0.
Proof.
  unfold chat_with_openai, chat_content. cbv zeta.
  destruct (complete (completions s) _) as [text|e].
  - exists (strip text), []. now repeat split.
  - eexists api_error_reply, [StError _]. cbn [trace cache].
    rewrite <- app_assoc. now repeat split.
Qed.

(** The function under the decorator returns, after one to three GETs, at
    most two requests to the completion service and at most fifteen
    seconds of sleep. *)
Lemma wrapped_run (url : pystr) (s : state) :
  exists r es,
    deep_scrape_website_wrapped http get_text complete url s
    = (Returned r, State (trace s ++ Get url :: es) (cache s))
    /\ count_gets (Get url :: es) <= 3
    /\ count_completions es <= 2
    /\ total_sleep es <= 15.
Proof.
  destruct (extract_run url s) as (data & es & Heq & Hgets & Hnone & Hsleep).
  unfold deep_scrape_website_wrapped. unfold mbind at 1. rewrite Heq.
  destruct data as [[|c text]|].
  - exists no_data, es. repeat split; [exact Hgets | lia | exact Hsleep].
  - set (t := firstn 5000 (c :: text)). set (s1 := State _ _).
    destruct (chat_run (extraction_prompt t) t s1)
      as (result & esa & Ha & Hga & Hca & Hsa).
    destruct (format_returns_text result) as (formatted & Hf & _).
    unfold mbind at 1. rewrite Ha. set (s2 := State _ _).
    unfold mbind at 1, lift. rewrite Hf.
    destruct (chat_run (summary_prompt t) t s2)
      as (summary & esb & Hb & Hgb & Hcb & Hsb).
    unfold mbind at 1. rewrite Hb. unfold ret.
    exists (formatted, Some summary),
      (es ++ Complete (chat_content (extraction_prompt t) t) :: esa
          ++ Complete (chat_content (summary_prompt t) t) :: esb).
    split.
    + subst s2 s1. cbn [trace cache]. do 2 f_equal.
      rewrite <- !app_assoc. reflexivity.
    + change (Get url :: es ++ ?x) with ((Get url :: es) ++ x).
      rewrite count_gets_app, count_completions_app, total_sleep_app.
      change (Complete ?c :: esa ++ ?y) with ((Complete c :: esa) ++ y).
      rewrite count_gets_app, count_completions_app, total_sleep_app.
      change (count_gets (Complete ?c :: ?l)) with (count_gets l).
      change (count_completions (Complete ?c :: ?l))
        with (S (count_completions l)).
      change (total_sleep (Complete ?c :: ?l)) with (total_sleep l).
      lia.
  - exists no_data, es. repeat split; [exact Hgets | lia | exact Hsleep].
Qed.

Lemma wrapped_returns (url : pystr) (s : state) :
  exists v s',
    deep_scrape_website_wrapped http get_text complete url s
    = (Returned v, s').
Proof.
  destruct (wrapped_run url s) as (r & es & Heq & _).
  now exists r, (State (trace s ++ Get url :: es) (cache s)).
Qed.

Lemma lookup_store (url : pystr) (v : extraction) (t : Cache.table) :
  Cache.lookup url (Cache.store url v t) = Some v.
Proof.
  unfold Cache.store, Cache.maxsize, Cache.lookup. cbn [firstn Dict.get].
  now rewrite str_eqb_refl.
Qed.

Lemma lookup_touch (url : pystr) (v : extraction) (t : Cache.table) :
  Cache.lookup url (Cache.touch url v t) = Some v.
Proof.
  unfold Cache.touch, Cache.lookup. cbn [Dict.get].
  now rewrite str_eqb_refl.
Qed.

(** A miss runs the function under the decorator and stores what it
    returns. *)
Lemma deep_scrape_miss (url : pystr) (s : state) :
  Cache.lookup url (cache s) = None ->
  exists r es,
    deep_scrape_website http get_text complete url s
    = (Returned r,
       State (trace s ++ Get url :: es) (Cache.store url r (cache s)))
    /\ deep_scrape_website_wrapped http get_text complete url s
       = (Returned r, State (trace s ++ Get url :: es) (cache s))
    /\ count_gets (Get url :: es) <= 3
    /\ count_completions es <= 2
    /\ total_sleep es <= 15.
Proof.
  intros Hmiss.
  destruct (wrapped_run url s) as (r & es & Heq & Hbounds).
  exists r, es. split; [|split; [exact Heq | exact Hbounds]].
  unfold deep_scrape_website, Cache.lru_cache. now rewrite Hmiss, Heq.
Qed.

End DeepScrapeRuns.

(** X15.  The table of the cache stays within its bound: after any
    sequence of calls of [deep_scrape_website], whatever the server and
    the completion service answer, the table holds at most 128 entries, no
    URL twice, and no URL that it did not hold before and that was not
    asked for. *)
Theorem cache_stays_bounded
        (http : nat -> pystr -> http_reply) (get_text : pystr -> pystr)
        (complete : nat -> pystr -> completion)
        (urls : list pystr) (s : state) :
  bounded (cache s) ->
  let s' :=
    Cache.after_calls (deep_scrape_website http get_text complete) urls s in
  bounded (cache s')
  /\ incl (Dict.keys (cache s')) (Dict.keys (cache s) ++ urls).
Proof.
  intros Hb s'. subst s'. unfold deep_scrape_website.
  apply after_calls_bounded; [|exact Hb].
  apply wrapped_keeps_cache.
Qed.

(** X15, at an empty table and a URL asked for twice around another. *)
Lemma cache_stays_bounded_witness :
  let http := fun (_ : nat) (_ : pystr) => Response 404 [] in
  let complete := fun (_ : nat) (_ : pystr) => Choice [] in
  bounded
    (cache (Cache.after_calls (deep_scrape_website http (fun t => t) complete)
              [lit "a"; lit "b"; lit "a"] (State [] []))).
Proof.
  intros http complete.
  apply (cache_stays_bounded http (fun t => t) complete
           [lit "a"; lit "b"; lit "a"] (State [] [])).
  split; [cbn; unfold Cache.maxsize; lia | constructor].
Defined.

(** X16.  The cache forgets: after 128 calls for distinct URLs that the
    table did not hold, the table holds exactly these URLs, the last one
    first; the entry of any other URL is gone, and the next call for such
    a URL fetches its page again. *)
Theorem cache_forgets_after_128_new_urls
        (http : nat -> pystr -> http_reply) (get_text : pystr -> pystr)
        (complete : nat -> pystr -> completion)
        (fresh : list pystr) (url : pystr) (s : state) :
  List.length (cache s) <= Cache.maxsize ->
  NoDup fresh ->
  List.length fresh = Cache.maxsize ->
  (forall u, In u fresh -> Cache.lookup u (cache s) = None) ->
  ~ In url fresh ->
  let s2 :=
    Cache.after_calls (deep_scrape_website http get_text complete) fresh s in
  Dict.keys (cache s2) = rev fresh
  /\ Cache.lookup url (cache s2) = None
  /\ exists r es,
      deep_scrape_website http get_text complete url s2
      = (Returned r,
         State (trace s2 ++ Get url :: es) (Cache.store url r (cache s2))).
Proof.
  intros Hlen Hnd Hfull Hmiss Hother s2.
  assert (Hkeys : Dict.keys (cache s2) = rev fresh).
  { subst s2. unfold deep_scrape_website.
    rewrite fresh_calls_keys;
      [|apply wrapped_keeps_cache | apply wrapped_returns
       | exact Hlen | exact Hnd | exact Hmiss].
    rewrite firstn_app, length_rev, Hfull, Nat.sub_diag.
    cbn [firstn]. rewrite app_nil_r.
    apply firstn_all2. rewrite length_rev. lia. }
  assert (Hgone : Cache.lookup url (cache s2) = None).
  { apply lookup_notin. rewrite Hkeys. now rewrite <- in_rev. }
  split; [exact Hkeys|]. split; [exact Hgone|].
  destruct (deep_scrape_miss http get_text complete url s2 Hgone)
    as (r & es & Hcall & _).
  now exists r, es.
Qed.

(** X16, at 128 URLs asked for after the page of the empty URL. *)
Lemma cache_forgets_after_128_new_urls_witness :
  let http := fun (_ : nat) (_ : pystr) => Response 404 [] in
  let complete := fun (_ : nat) (_ : pystr) => Choice [] in
  let fresh := map (repeat "a"%char) (seq 1 128) in
  let s1 :=
    snd (deep_scrape_website http (fun t => t) complete [] (State [] [])) in
  Cache.lookup [] (cache s1) = Some no_data
  /\ Cache.lookup []
       (cache (Cache.after_calls
                 (deep_scrape_website http (fun t => t) complete) fresh s1))
     = None.
Proof.
  intros http complete fresh s1. split; [reflexivity|].
  apply (cache_forgets_after_128_new_urls http (fun t => t) complete
           fresh [] s1).
  - cbn. unfold Cache.maxsize. lia.
  - apply NoDup_map_injective; [|apply seq_NoDup].
    intros n m Heq. apply (f_equal (@List.length ascii)) in Heq.
    now rewrite !repeat_length in Heq.
  - unfold fresh. now rewrite length_map, length_seq.
  - intros u Hu. apply in_map_iff in Hu as (n & <- & Hn).
    apply in_seq in Hn. destruct n as [|n]; [lia | reflexivity].
  - intros Hin. apply in_map_iff in Hin as (n & Heq & Hn).
    apply in_seq in Hn. destruct n as [|n]; [lia | discriminate].
Defined.

(** X17.  A call of [deep_scrape_website] always returns, and its cost is
    bounded: at most three GETs, at most two requests to the completion
    service and at most fifteen seconds of sleep; it does all of this
    only when the table does not hold the URL, and what it returns is in
    the table afterwards, whether the extraction succeeded or not. *)
Theorem deep_scrape_returns_at_bounded_cost
        (http : nat -> pystr -> http_reply) (get_text : pystr -> pystr)
        (complete : nat -> pystr -> completion)
        (url : pystr) (s : state) :
  exists r es t,
    deep_scrape_website http get_text complete url s
    = (Returned r, State (trace s ++ es) t)
    /\ Cache.lookup url t = Some r
    /\ count_gets es <= 3
    /\ count_completions es <= 2
    /\ total_sleep es <= 15
    /\ (es = [] <-> Cache.lookup url (cache s) <> None).
Proof.
  destruct (Cache.lookup url (cache s)) as [v|] eqn:Hlook.
  - exists v, [], (Cache.touch url v (cache s)).
    unfold deep_scrape_website. rewrite (lru_cache_hit _ _ _ Hlook).
    rewrite app_nil_r. split; [reflexivity|].
    split; [apply lookup_touch|].
    repeat split; try (cbn; lia). discriminate.
  - destruct (deep_scrape_miss http get_text complete url s Hlook)
      as (r & es & Hcall & _ & Hgets & Hcompl & Hsleep).
    exists r, (Get url :: es), (Cache.store url r (cache s)).
    split; [exact Hcall|]. split; [apply lookup_store|].
    split; [exact Hgets|]. split; [exact Hcompl|]. split; [exact Hsleep|].
    split; [discriminate | intros H; now elim H].
Qed.

(** X18.  A page that answers 200 with an empty text counts as no data:
    [deep_scrape_website] makes its one GET, sends nothing to the
    completion service, and returns and stores the pair of "No data
    extracted. The website might be blocking requests." and [None]. *)
Theorem deep_scrape_empty_page_is_no_data
        (http : nat -> pystr -> http_reply) (get_text : pystr -> pystr)
        (complete : nat -> pystr -> completion)
        (url body : pystr) (s : state) :
  Cache.lookup url (cache s) = None ->
  http (gets s) url = Response 200 body ->
  get_text body = [] ->
  deep_scrape_website http get_text complete url s
  = (Returned no_data,
     State (trace s ++ [Get url]) (Cache.store url no_data (cache s))).
Proof.
  intros Hmiss Hok Hempty.
  unfold deep_scrape_website, Cache.lru_cache. rewrite Hmiss.
  unfold deep_scrape_website_wrapped, extract_webpage_text.
  cbn [attempts]. unfold mbind, requests_get. rewrite Hok.
  cbn [Z.eqb Pos.eqb]. unfold ret. now rewrite Hempty.
Qed.

(** X18, at a server whose pages are empty. *)
Lemma deep_scrape_empty_page_is_no_data_witness :
  fst (deep_scrape_website (fun _ _ => Response 200 []) (fun t => t)
         (fun _ _ => Choice (lit "unused")) (lit "http://a.b") (State [] []))
  = Returned no_data.
Proof.
  now rewrite (deep_scrape_empty_page_is_no_data
                 (fun _ _ => Response 200 []) (fun t => t)
                 (fun _ _ => Choice (lit "unused")) (lit "http://a.b") []
                 (State [] []) eq_refl eq_refl eq_refl).
Defined.

Section DeepScrapePaths.

Variable http : nat -> pystr -> http_reply.
Variable get_text : pystr -> pystr.
Variable complete : nat -> pystr -> completion.

(** The call on a page with text, up to the two replies of the
    completion service. *)
Lemma wrapped_on_text (url body : pystr) (s : state) :
  http (gets s) url = Response 200 body ->
  get_text body <> [] ->
  deep_scrape_website_wrapped http get_text complete url s
  = (let truncated_text := firstn 5000 (get_text body) in
     result <~ chat_with_openai complete
                 (extraction_prompt truncated_text) truncated_text ;;
     formatted_result <~ lift (format_deep_scrape_output result) ;;
     summary <~ chat_with_openai complete
                  (summary_prompt truncated_text) truncated_text ;;
     ret (formatted_result, Some summary))
      (State (trace s ++ [Get url]) (cache s)).
Proof.
  intros Hok Htext.
  unfold deep_scrape_website_wrapped, extract_webpage_text.
  cbn [attempts]. unfold mbind at 1. unfold mbind at 1, requests_get.
  rewrite Hok. cbn [Z.eqb Pos.eqb]. unfold ret at 1.
  destruct (get_text body) as [|c text]; [now elim Htext | reflexivity].
Qed.

Lemma completions_after_get (url : pystr) (s : state) :
  completions (State (trace s ++ [Get url]) (cache s)) = completions s.
Proof.
  unfold completions. cbn [trace]. rewrite filter_app. cbn.
  now rewrite app_nil_r.
Qed.

Lemma completions_after_complete (t : list event) (c : Cache.table)
      (content : pystr) (es : list event) :
  count_completions es = 0 ->
  completions (State (t ++ Complete content :: es) c)
  = S (completions (State t c)).
Proof.
  unfold completions, count_completions. cbn [trace]. intros Hes.
  rewrite filter_app, length_app. cbn [filter is_complete List.length].
  rewrite Hes. lia.
Qed.

End DeepScrapePaths.

(** X19.  On a page with text, a call that misses the table makes one GET
    and two requests to the completion service, in this order: the
    extraction prompt, then the summary prompt, each with the first 5000
    characters of the page as its context; it returns the formatted first
    reply and the stripped second reply, and stores the pair. *)
Theorem deep_scrape_on_text
        (http : nat -> pystr -> http_reply) (get_text : pystr -> pystr)
        (complete : nat -> pystr -> completion)
        (url body reply1 reply2 : pystr) (s : state) :
  let text := firstn 5000 (get_text body) in
  let ask1 := chat_content (extraction_prompt text) text in
  let ask2 := chat_content (summary_prompt text) text in
  Cache.lookup url (cache s) = None ->
  http (gets s) url = Response 200 body ->
  get_text body <> [] ->
  complete (completions s) ask1 = Choice reply1 ->
  complete (S (completions s)) ask2 = Choice reply2 ->
  exists formatted,
    format_deep_scrape_output (strip reply1) = Returned formatted
    /\ deep_scrape_website http get_text complete url s
       = (Returned (formatted, Some (strip reply2)),
          State (trace s ++ [Get url; Complete ask1; Complete ask2])
                (Cache.store url (formatted, Some (strip reply2)) (cache s)))
    /\ List.length text <= 5000.
Proof.
  intros text ask1 ask2 Hmiss Hok Htext H1 H2.
  destruct (format_returns_text (strip reply1)) as (formatted & Hf & _).
  exists formatted. split; [exact Hf|]. split; [|apply firstn_le_length].
  unfold deep_scrape_website, Cache.lru_cache. rewrite Hmiss.
  rewrite (wrapped_on_text http get_text complete url body s Hok Htext).
  cbv zeta. fold text.
  unfold mbind at 1. unfold chat_with_openai at 1. cbv zeta.
  rewrite completions_after_get. fold (chat_content (extraction_prompt text) text).
  fold ask1. rewrite H1. cbn [trace cache].
  unfold mbind at 1, lift. rewrite Hf.
  unfold mbind at 1. unfold chat_with_openai. cbv zeta.
  fold (chat_content (summary_prompt text) text). fold ask2.
  rewrite (completions_after_complete _ _ ask1 [] eq_refl).
  rewrite completions_after_get, H2.
  unfold ret. cbn [trace cache]. rewrite <- !app_assoc. reflexivity.
Qed.

(** X19, at a page of five characters and a service that echoes. *)
Lemma deep_scrape_on_text_witness :
  let http := fun (_ : nat) (_ : pystr) => Response 200 (lit "hello") in
  let complete := fun (_ : nat) (_ : pystr) => Choice (lit " Email: a@b.c ") in
  exists formatted s',
    deep_scrape_website http (fun t => t) complete (lit "http://a.b")
      (State [] [])
    = (Returned (formatted, Some (lit "Email: a@b.c")), s')
    /\ count_completions (trace s') = 2.
Proof.
  intros http complete.
  destruct (deep_scrape_on_text http (fun t => t) complete (lit "http://a.b")
              (lit "hello") (lit " Email: a@b.c ") (lit " Email: a@b.c ")
              (State [] []) eq_refl eq_refl)
    as (formatted & _ & Hcall & _).
  - discriminate.
  - reflexivity.
  - reflexivity.
  - exists formatted. eexists. split; [exact Hcall | reflexivity].
Defined.

(** X20.  A failure of the completion service does not show in the result
    of [deep_scrape_website]: when both requests raise, the apology that
    [chat_with_openai] returns is formatted like a reply without any
    section, so the call returns the seven default lines, with the apology
    as the summary, and stores this pair like any other. *)
Theorem deep_scrape_masks_service_failure
        (http : nat -> pystr -> http_reply) (get_text : pystr -> pystr)
        (complete : nat -> pystr -> completion)
        (url body e1 e2 : pystr) (s : state) :
  let text := firstn 5000 (get_text body) in
  Cache.lookup url (cache s) = None ->
  http (gets s) url = Response 200 body ->
  get_text body <> [] ->
  complete (completions s) (chat_content (extraction_prompt text) text)
  = ApiException e1 ->
  complete (S (completions s)) (chat_content (summary_prompt text) text)
  = ApiException e2 ->
  exists s',
    deep_scrape_website http get_text complete url s
    = (Returned (all_defaults, Some api_error_reply), s')
    /\ Cache.lookup url (cache s')
       = Some (all_defaults, Some api_error_reply)
    /\ count_gets (trace s') = S (count_gets (trace s))
    /\ count_completions (trace s') = S (S (count_completions (trace s))).
Proof.
  intros text Hmiss Hok Htext H1 H2.
  assert (Hf : format_deep_scrape_output api_error_reply
               = Returned all_defaults) by (vm_compute; reflexivity).
  unfold deep_scrape_website, Cache.lru_cache. rewrite Hmiss.
  rewrite (wrapped_on_text http get_text complete url body s Hok Htext).
  cbv zeta. fold text.
  unfold mbind at 1. unfold chat_with_openai at 1. cbv zeta.
  rewrite completions_after_get.
  fold (chat_content (extraction_prompt text) text). rewrite H1.
  cbn [trace cache].
  unfold mbind at 1, lift. rewrite Hf.
  unfold mbind at 1. unfold chat_with_openai. cbv zeta.
  fold (chat_content (summary_prompt text) text).
  rewrite <- app_assoc. cbn [app].
  rewrite (completions_after_complete _ _ _ [StError _] eq_refl).
  rewrite completions_after_get, H2.
  unfold ret. cbn [trace cache]. eexists. split; [reflexivity|].
  cbn [cache trace]. split; [apply lookup_store|].
  unfold count_gets, count_completions.
  rewrite <- !app_assoc, !filter_app, !length_app. cbn. lia.
Qed.

(** X20, at a service that is out of quota. *)
Lemma deep_scrape_masks_service_failure_witness :
  let http := fun (_ : nat) (_ : pystr) => Response 200 (lit "hello") in
  let complete := fun (_ : nat) (_ : pystr) => ApiException (lit "quota") in
  fst (deep_scrape_website http (fun t => t) complete (lit "http://a.b")
         (State [] []))
  = Returned (all_defaults, Some api_error_reply).
Proof.
  intros http complete.
  destruct (deep_scrape_masks_service_failure http (fun t => t) complete
              (lit "http://a.b") (lit "hello") (lit "quota") (lit "quota")
              (State [] []) eq_refl eq_refl)
    as (s' & Hcall & _).
  - discriminate.
  - reflexivity.
  - reflexivity.
  - now rewrite Hcall.
Defined.

(** ** The name of a supplier *)

Section CompanyNameFacts.

(** A site is found behind a stripped prefix exactly when it is found
    with the prefix in place. *)
Lemma sites_behind_scheme (x : pystr) :
  on_marketplace (lit "http://" ++ x) = on_marketplace x
  /\ on_marketplace (lit "https://" ++ x) = on_marketplace x
  /\ on_marketplace (lit "www." ++ x) = on_marketplace x.
Proof.
  unfold on_marketplace. rewrite !lower_app.
  repeat split; reflexivity.
Qed.

Lemma startswith_skipn (p url : pystr) :
  startswith p url = true -> url = p ++ skipn (List.length p) url.
Proof.
  intros H. apply startswith_iff in H as (r & ->).
  now rewrite skipn_app, skipn_all, Nat.sub_diag.
Qed.

Lemma on_marketplace_sub_scheme (url : pystr) :
  on_marketplace (sub_scheme url) = on_marketplace url.
Proof.
  unfold sub_scheme.
  destruct (startswith (lit "http://") url) eqn:E1.
  - apply startswith_skipn in E1. rewrite E1 at 2.
    symmetry. apply sites_behind_scheme.
  - destruct (startswith (lit "https://") url) eqn:E2; [|reflexivity].
    apply startswith_skipn in E2. rewrite E2 at 2.
    symmetry. apply sites_behind_scheme.
Qed.

Lemma on_marketplace_sub_www (url : pystr) :
  on_marketplace (sub_www url) = on_marketplace url.
Proof.
  unfold sub_www.
  destruct (startswith (lit "www.") url) eqn:E; [|reflexivity].
  apply startswith_skipn in E. rewrite E at 2.
  symmetry. apply sites_behind_scheme.
Qed.

Lemma first_field_plain (c : ascii) (url : pystr) :
  has_char c (first_field url) = true ->
  c <> "."%char /\ c <> "/"%char.
Proof.
  induction url as [|d url IH]; [discriminate|].
  cbn [first_field].
  destruct (Ascii.eqb d "."%char || Ascii.eqb d "/"%char) eqn:E;
    [discriminate|].
  cbn [has_char existsb]. intros H. apply orb_true_iff in H as [H|H].
  - apply Ascii.eqb_eq in H. subst d.
    apply orb_false_iff in E as [E1 E2].
    split; intros ->; [now rewrite Ascii.eqb_refl in E1
                      | now rewrite Ascii.eqb_refl in E2].
  - now apply IH.
Qed.

Lemma first_field_of_host (name rest : pystr) :
  has_char "."%char name = false ->
  has_char "/"%char name = false ->
  field_end rest = true ->
  first_field (name ++ rest) = name.
Proof.
  intros Hdot Hslash Hend. induction name as [|c name IH].
  - destruct rest as [|c rest]; [reflexivity|].
    cbn [app first_field]. cbn [field_end] in Hend. now rewrite Hend.
  - cbn [has_char existsb] in Hdot, Hslash.
    apply orb_false_iff in Hdot as [Hc1 Hdot].
    apply orb_false_iff in Hslash as [Hc2 Hslash].
    cbn [app first_field].
    rewrite (Ascii.eqb_sym c), Hc1, (Ascii.eqb_sym c), Hc2. cbn [orb].
    now rewrite IH.
Qed.

End CompanyNameFacts.

Section HostFacts.

Variable name : pystr.
Variable rest : pystr.
Hypothesis name_is_field : host_field name = true.
Hypothesis rest_is_end : field_end rest = true.

Lemma host_field_parts :
  has_char "."%char name = false
  /\ has_char "/"%char name = false
  /\ name <> lit "www" /\ name <> lit "http:" /\ name <> lit "https:".
Proof.
  unfold host_field in name_is_field.
  repeat (apply andb_true_iff in name_is_field as [name_is_field ?]).
  repeat match goal with
         | H : negb _ = true |- _ => apply negb_true_iff in H
         end.
  repeat split; try assumption; intros ->; discriminate.
Qed.

Lemma host_not_www : startswith (lit "www.") (name ++ rest) = false.
Proof.
  destruct host_field_parts as (Hdot & _ & Hwww & _).
  destruct (startswith (lit "www.") (name ++ rest)) eqn:E; [|reflexivity].
  exfalso. apply startswith_iff in E as (r & E). revert Hdot Hwww E.
  clear name_is_field.
  destruct name as [|c1 [|c2 [|c3 [|c4 n]]]]; cbn [app lit]; intros Hdot Hwww E.
  - subst rest. discriminate rest_is_end.
  - injection E as -> E. subst rest. discriminate rest_is_end.
  - injection E as -> -> E. subst rest. discriminate rest_is_end.
  - injection E as -> -> -> E. now apply Hwww.
  - injection E as -> -> -> -> E. discriminate Hdot.
Qed.

Lemma host_not_http : startswith (lit "http://") (name ++ rest) = false.
Proof.
  destruct host_field_parts as (_ & Hslash & _ & Hhttp & _).
  destruct (startswith (lit "http://") (name ++ rest)) eqn:E; [|reflexivity].
  exfalso. apply startswith_iff in E as (r & E). revert Hslash Hhttp E.
  clear name_is_field.
  destruct name as [|c1 [|c2 [|c3 [|c4 [|c5 [|c6 n]]]]]]; cbn [app lit];
    intros Hslash Hhttp E.
  - subst rest. discriminate rest_is_end.
  - injection E as -> E. subst rest. discriminate rest_is_end.
  - injection E as -> -> E. subst rest. discriminate rest_is_end.
  - injection E as -> -> -> E. subst rest. discriminate rest_is_end.
  - injection E as -> -> -> -> E. subst rest. discriminate rest_is_end.
  - injection E as -> -> -> -> -> E. now apply Hhttp.
  - injection E as -> -> -> -> -> -> E. discriminate Hslash.
Qed.

Lemma host_not_https : startswith (lit "https://") (name ++ rest) = false.
Proof.
  destruct host_field_parts as (_ & Hslash & _ & _ & Hhttps).
  destruct (startswith (lit "https://") (name ++ rest)) eqn:E; [|reflexivity].
  exfalso. apply startswith_iff in E as (r & E). revert Hslash Hhttps E.
  clear name_is_field.
  destruct name as [|c1 [|c2 [|c3 [|c4 [|c5 [|c6 [|c7 n]]]]]]]; cbn [app lit];
    intros Hslash Hhttps E.
  - subst rest. discriminate rest_is_end.
  - injection E as -> E. subst rest. discriminate rest_is_end.
  - injection E as -> -> E. subst rest. discriminate rest_is_end.
  - injection E as -> -> -> E. subst rest. discriminate rest_is_end.
  - injection E as -> -> -> -> E. subst rest. discriminate rest_is_end.
  - injection E as -> -> -> -> -> E. subst rest. discriminate rest_is_end.
  - injection E as -> -> -> -> -> -> E. now apply Hhttps.
  - injection E as -> -> -> -> -> -> -> E. discriminate Hslash.
Qed.

(** The two substitutions strip the scheme and the "www." of a host, and
    nothing of the host itself. *)
Lemma strip_host (scheme www : pystr) :
  In scheme [[]; lit "http://"; lit "https://"] ->
  In www [[]; lit "www."] ->
  sub_www (sub_scheme (scheme ++ www ++ name ++ rest)) = name ++ rest.
Proof.
  pose proof host_not_www as Hw. pose proof host_not_http as Hh.
  pose proof host_not_https as Hs.
  intros Hscheme Hwww.
  assert (Hinner : sub_www (www ++ name ++ rest) = name ++ rest).
  { unfold sub_www. destruct Hwww as [<-|[<-|[]]].
    - cbn [app]. now rewrite Hw.
    - reflexivity. }
  assert (Hplain : sub_scheme (www ++ name ++ rest) = www ++ name ++ rest).
  { unfold sub_scheme. destruct Hwww as [<-|[<-|[]]].
    - cbn [app]. now rewrite Hh, Hs.
    - reflexivity. }
  destruct Hscheme as [<-|[<-|[<-|[]]]].
  - cbn [app]. now rewrite Hplain.
  - unfold sub_scheme at 1. cbn. exact Hinner.
  - unfold sub_scheme at 1. cbn. exact Hinner.
Qed.

End HostFacts.

(** X21.  The name of a supplier is the first field of the host, in the
    case of the URL: a scheme "http://" or "https://" and a "www." in
    front of the host are left out, whatever follows the first dot or
    slash is left out, and " (Multiple Suppliers Found)" is appended
    exactly when the host and path mention a marketplace.  So the same
    host gives the same name with or without scheme and "www.". *)
Theorem company_name_is_first_host_field (scheme www name rest : pystr) :
  In scheme [[]; lit "http://"; lit "https://"] ->
  In www [[]; lit "www."] ->
  host_field name = true ->
  field_end rest = true ->
  get_company_name_from_url (scheme ++ www ++ name ++ rest)
  = name ++ (if on_marketplace (name ++ rest)
             then multiple_suppliers_found else []).
Proof.
  intros Hscheme Hwww Hname Hrest.
  unfold get_company_name_from_url. cbv zeta.
  rewrite (strip_host name rest Hname Hrest scheme www Hscheme Hwww).
  destruct (host_field_parts name Hname) as (Hdot & Hslash & _).
  rewrite (first_field_of_host name rest Hdot Hslash Hrest).
  fold (on_marketplace (name ++ rest)).
  destruct (on_marketplace (name ++ rest)); [reflexivity|].
  now rewrite app_nil_r.
Qed.

(** X21, at a host with scheme and "www.", and at a marketplace. *)
Lemma company_name_is_first_host_field_witness :
  get_company_name_from_url (lit "https://www.Acme-Steel.co.in/contact")
  = lit "Acme-Steel"
  /\ get_company_name_from_url (lit "http://dir.IndiaMart.com/x")
     = lit "dir (Multiple Suppliers Found)".
Proof.
  split.
  - apply (company_name_is_first_host_field (lit "https://") (lit "www.")
             (lit "Acme-Steel") (lit ".co.in/contact"));
      (reflexivity || (cbn; tauto)).
  - apply (company_name_is_first_host_field (lit "http://") []
             (lit "dir") (lit ".IndiaMart.com/x"));
      (reflexivity || (cbn; tauto)).
Defined.

(** X22.  The marketplace label is decided on the whole URL as it was
    given: it is appended exactly when one of the five marketplace names
    occurs in the lowercased URL, in the host or behind it, and the two
    substitutions cannot hide or create an occurrence; the part before the
    label holds neither dot nor slash. *)
Theorem company_name_label_from_whole_url (url : pystr) :
  exists domain,
    get_company_name_from_url url
    = domain ++ (if on_marketplace url then multiple_suppliers_found else [])
    /\ has_char "."%char domain = false
    /\ has_char "/"%char domain = false.
Proof.
  exists (first_field (sub_www (sub_scheme url))). split; [|split].
  - unfold get_company_name_from_url. cbv zeta.
    fold (on_marketplace (sub_www (sub_scheme url))).
    rewrite on_marketplace_sub_www, on_marketplace_sub_scheme.
    destruct (on_marketplace url); [reflexivity | now rewrite app_nil_r].
  - destruct (has_char "."%char (first_field (sub_www (sub_scheme url))))
      eqn:E; [|reflexivity].
    apply first_field_plain in E as [E _]. now elim E.
  - destruct (has_char "/"%char (first_field (sub_www (sub_scheme url))))
      eqn:E; [|reflexivity].
    apply first_field_plain in E as [_ E]. now elim E.
Qed.

(** ** The "Rank" button *)

Section RankButtonFacts.

Variable http : nat -> pystr -> http_reply.
Variable get_text : pystr -> pystr.
Variable complete : nat -> pystr -> completion.
Variable json_loads : pystr -> option json.







End RankButtonFacts.





(** ** The formatter: continuation lines *)

Section Continuations.

Lemma append_to_last_snoc (s entry : pystr) (pre : list pystr) :
  append_to_last s (pre ++ [entry]) = Returned (pre ++ [entry ++ s]).
Proof.
  unfold append_to_last.
  destruct (pre ++ [entry]) as [|l out] eqn:E.
  - now apply app_eq_nil in E as [_ E].
  - rewrite <- E. now rewrite removelast_last, last_last.
Qed.

Lemma continuation_passed_over (raw : pystr) :
  continuation raw = true -> passed_over raw = true.
Proof.
  unfold continuation, passed_over. intros H.
  apply andb_true_iff in H as [_ H].
  destruct (match_section (strip raw)); [discriminate|].
  apply orb_true_r.
Qed.

Lemma display_name_nonempty (key d : pystr) :
  In (key, d) sections -> nonempty d = true.
Proof.
  unfold sections; simpl. intros H.
  repeat (destruct H as [[= <- <-]|H]; [reflexivity|]). destruct H.
Qed.

(** Outside the multiple-suppliers mode each continuation line is
    appended to the last entry, stripped, behind one space. *)
Lemma scan_continuations (d : pystr) (conts : list pystr)
      (pre : list pystr) (entry : pystr) (idx : nat)
      (data : Dict.dict nat (list pystr)) :
  nonempty d = true ->
  forallb continuation conts = true ->
  scan false (Locals (pre ++ [entry]) (Some d) idx data) conts
  = Returned
      (Locals (pre ++ [entry ++ List.concat
                                  (map (fun raw => lit " " ++ strip raw)
                                       conts)])
              (Some d) idx data).
Proof.
  intros Hd. revert entry. induction conts as [|raw conts IH]; intros entry.
  - intros _. cbn [map List.concat scan]. now rewrite app_nil_r.
  - cbn [forallb]. intros H. apply andb_true_iff in H as [Hraw Hrest].
    unfold continuation in Hraw. apply andb_true_iff in Hraw as [Hne Hnone].
    cbn [scan]. unfold scan_line. cbv zeta. rewrite Hne. cbn [negb].
    destruct (match_section (strip raw)); [discriminate|].
    cbn [current_section formatted_output supplier_index supplier_data].
    rewrite Hd. cbn [andb]. rewrite append_to_last_snoc. cbn [bind].
    rewrite (IH _ Hrest). cbn [map List.concat]. now rewrite <- app_assoc.
Qed.

End Continuations.

(** X25.  Outside the multiple-suppliers mode the lines that follow a
    header and hold no keyword are joined to its entry: a header line
    followed by such lines gives one entry, the title and content of the
    header followed by each of the lines, stripped, behind one space; the
    defaults of the other sections follow. *)
Theorem format_joins_continuations
        (header key d : pystr) (continuations : list pystr) :
  contains (lit "Error") (join [newline] (header :: continuations)) = false ->
  forallb (fun l => negb (has_char newline l)) (header :: continuations)
  = true ->
  match_section (strip header) = Some (key, d) ->
  forallb continuation continuations = true ->
  let entry :=
    joined_entry d (header_content key (strip header)) continuations in
  format_deep_scrape_output (join [newline] (header :: continuations))
  = Returned (join [newline] (entry :: defaults_for [entry])).
Proof.
  intros Hno Hlines Hm Hconts entry.
  change (entry :: defaults_for [entry]) with ([entry] ++ defaults_for [entry]).
  apply (@format_of_scanned _ [entry] Hno).
  unfold scanned_lines. cbv zeta.
  rewrite (@split_join newline (header :: continuations));
    [|discriminate|].
  - assert (Hsingle :
      (1 <? List.length (supplier_lines (header :: continuations)))
      = false).
    { change (header :: continuations) with ([header] ++ continuations).
      rewrite supplier_lines_app, (supplier_lines_passed_over continuations).
      - rewrite app_nil_r. unfold supplier_lines. cbn [filter].
        now destruct (mentions_supplier_details header).
      - rewrite forallb_forall in *. intros raw Hraw.
        now apply continuation_passed_over, Hconts. }
    rewrite Hsingle. cbn [scan]. unfold scan_line at 1.
    pose proof Hm as Hin. apply match_section_in in Hin as [Hin _].
    assert (Hne : nonempty (strip header) = true).
    { destruct (strip header); [|reflexivity].
      unfold match_section in Hm. cbn in Hm. discriminate Hm. }
    cbv zeta. rewrite Hne, Hm. cbn [negb]. rewrite andb_false_r. cbn [bind].
    cbn [formatted_output current_section supplier_index supplier_data app].
    pose proof (scan_continuations d continuations []
                  (section_line d (header_content key (strip header))) 0 []
                  (display_name_nonempty key d Hin) Hconts) as Hscan.
    cbn [app] in Hscan. rewrite Hscan. reflexivity.
  - apply Forall_forall. intros l Hl.
    rewrite forallb_forall in Hlines. specialize (Hlines l Hl).
    now apply negb_true_iff in Hlines.
Qed.

(** X25, at an address written on three lines. *)
Lemma format_joins_continuations_witness :
  exists rest,
    format_deep_scrape_output
      (join [newline] [lit "Location: 12 Mill Road"; lit "  Pune 411001 ";
                       lit "India"])
    = Returned (lit "**Location**: 12 Mill Road Pune 411001 India"
                ++ newline :: rest).
Proof.
  rewrite (format_joins_continuations (lit "Location: 12 Mill Road")
             (lit "Location") (lit "Location")
             [lit "  Pune 411001 "; lit "India"]
             eq_refl eq_refl eq_refl eq_refl).
  eexists. vm_compute. reflexivity.
Defined.
